(** * profit_calculator: a shallow embedding of [profit_calculator.cpp]

    The program evaluates a newsvendor decision: [calculate_profit] prices one
    (order, demand) pair, [create_profit_matrix] tabulates it over two
    vectors, [calculate_expected_values] weights the columns by demand
    probabilities, [calculate_expected_profits] sums the rows, and the loop
    at the end of [main] picks the order with the largest expected profit.

    Data model used here
    - [int] is a 32-bit two's complement integer, carried as [Z] with the
      wrap-around of the subtraction written out;
    - [double] is IEEE 754 binary64, carried as [spec_float] with the
      operations of the Standard Library's executable specification at
      precision 53 and exponent bound 1024 (round to nearest, ties to even);
    - [std::vector] is a [list]; [operator[]] and writes through an iterator
      are unchecked in the source, so every access is modelled by a lookup
      that yields [OutOfBounds] when the index is not in range. *)

From Stdlib Require Import ZArith Lia Bool String Ascii DecimalString.
From Stdlib Require Import Floats.SpecFloat.
From stdpp Require Import base list.

#[local] Open Scope Z_scope.

(** ** Machine integers *)

Module Int.

Definition min_int : Z := - 2 ^ 31.
Definition max_int : Z := 2 ^ 31 - 1.

Definition in_range (z : Z) : Prop := min_int <= z <= max_int.

(** Reduction of a mathematical integer to the 32-bit signed range. *)
Definition wrap (z : Z) : Z := (z + 2 ^ 31) mod 2 ^ 32 - 2 ^ 31.

(** [a - b] on [int]. *)
Definition sub (a b : Z) : Z := wrap (a - b).

(** [std::min(a, b)] is [(b < a) ? b : a]. *)
Definition std_min (a b : Z) : Z := if b <? a then b else a.

(** [std::max(a, b)] is [(a < b) ? b : a]. *)
Definition std_max (a b : Z) : Z := if a <? b then b else a.

End Int.

(** ** Binary64 floating point *)

Module Double.

Definition prec : Z := 53.
Definition emax : Z := 1024.

Definition double : Type := spec_float.

Definition add : double -> double -> double := SFadd prec emax.
Definition sub : double -> double -> double := SFsub prec emax.
Definition mul : double -> double -> double := SFmul prec emax.
Definition div : double -> double -> double := SFdiv prec emax.

(** [a > b] on doubles is [b < a]; it is false as soon as one side is NaN. *)
Definition gt (a b : double) : bool := SFltb b a.

(** Conversion of an [int] to [double]; exact for every 32-bit value. *)
Definition of_int (z : Z) : double := binary_normalize prec emax z 0 false.

(** [a >= b] on doubles is [b <= a]; false as soon as one side is NaN. *)
Definition ge (a b : double) : bool := SFleb b a.

(** [0.0], the value a [std::vector<double>(n)] is filled with. *)
Definition zero : double := S754_zero false.

(** [std::numeric_limits<double>::lowest()], that is [-DBL_MAX]. *)
Definition lowest : double := SFopp (SFmax_float prec emax).

End Double.

Abbreviation double := Double.double.

Declare Scope double_scope.
Delimit Scope double_scope with double.
Bind Scope double_scope with Double.double.
Infix "+" := Double.add : double_scope.
Infix "-" := Double.sub : double_scope.
Infix "*" := Double.mul : double_scope.
Infix ">" := Double.gt : double_scope.
Infix ">=" := Double.ge : double_scope.

(** ** The profit of one (order, demand) pair *)

Definition sale_price_first_half : double := Double.of_int 49000.
Definition sale_price_second_half : double := Double.of_int 15000.
Definition cost_per_unit : double := Double.of_int 25000.

(** [double calculate_profit(int orders, int demand)]. The [int] operands of
    the three products are converted to [double] before multiplying. *)
Definition calculate_profit (orders demand : Z) : double :=
  let revenue :=
    (sale_price_first_half * Double.of_int (Int.std_min orders demand) +
     sale_price_second_half * Double.of_int (Int.std_max 0 (Int.sub orders demand)))%double in
  let total_cost := (cost_per_unit * Double.of_int orders)%double in
  (revenue - total_cost)%double.

(** ** Outcomes of a call

    The source raises no exception and checks no index. A call either
    returns or runs into an out-of-range access, which is undefined
    behaviour in C++. [Fails] carries the error kinds that the written
    specification names; no function of this program produces them. *)

Inductive error_kind : Type := InvalidArgument | DimensionMismatch | EmptyInput.

Inductive outcome (A : Type) : Type :=
  | Returns (a : A)
  | Fails (k : error_kind)
  | OutOfBounds.

Arguments Returns {A} a.
Arguments Fails {A} k.
Arguments OutOfBounds {A}.

Definition bind {A B : Type} (c : outcome A) (f : A -> outcome B) : outcome B :=
  match c with
  | Returns a => f a
  | Fails k => Fails k
  | OutOfBounds => OutOfBounds
  end.

Notation "x <- c ;; k" := (bind c (fun x => k))
  (at level 100, c at next level, right associativity).

Definition in_bounds {A : Type} (c : outcome A) : Prop := c <> OutOfBounds.

(** ** Vectors *)

Module Vec.

(** [v[i]] read. *)
Definition at_ {A : Type} (v : list A) (i : nat) : outcome A :=
  match v !! i with
  | Some x => Returns x
  | None => OutOfBounds
  end.

(** [v[i] = x], also a write through [v.begin() + i]. *)
Definition set {A : Type} (v : list A) (i : nat) (x : A) : outcome (list A) :=
  if decide (i < length v)%nat then Returns (<[i := x]> v) else OutOfBounds.

(** [std::vector<A>(n, x)]. *)
Definition make {A : Type} (n : nat) (x : A) : list A := replicate n x.

End Vec.

(** [for (auto i{ 0uz }; i < n; ++i) body], started at index [i] with
    [count] iterations left. *)
Fixpoint for_loop {St : Type} (count : nat) (i : nat)
    (body : nat -> St -> outcome St) (st : St) : outcome St :=
  match count with
  | O => Returns st
  | S count' => st' <- body i st ;; for_loop count' (S i) body st'
  end.

(** [std::ranges::transform(src, out, f)] and [std::transform(first, last,
    out, f)]: every element of [src] in turn is passed to [f] and the result
    stored through the output iterator, which starts at position [k] of
    [dst] and advances by one. [f] may carry a state of its own (a [mutable]
    lambda); [s] is that state. *)
Fixpoint transform {A B St : Type} (f : St -> A -> outcome (B * St))
    (src : list A) (dst : list B) (k : nat) (s : St) : outcome (list B) :=
  match src with
  | [] => Returns dst
  | x :: src' =>
      r <- f s x ;;
      dst' <- Vec.set dst k r.1 ;;
      transform f src' dst' (S k) r.2
  end.

(** [std::accumulate(first, last, init)]: [init = init + *first] for every
    element from left to right. *)
Fixpoint accumulate (row : list double) (init : double) : double :=
  match row with
  | [] => init
  | x :: row' => accumulate row' (init + x)%double
  end.

(** ** The four stages *)

(** [create_profit_matrix]: a grid of [orders.size()] rows of
    [demands.size()] zeros, then row [i] is overwritten by the transform of
    [demands] under [calculate_profit(orders[i], _)]. *)
Definition create_profit_matrix (orders demands : list Z)
    : outcome (list (list double)) :=
  let profit_matrix :=
    Vec.make (length orders) (Vec.make (length demands) Double.zero) in
  for_loop (length orders) 0
    (fun i profit_matrix =>
       row <- Vec.at_ profit_matrix i ;;
       row' <- transform
                 (fun (_ : unit) demand =>
                    o <- Vec.at_ orders i ;;
                    Returns (calculate_profit o demand, tt))
                 demands row 0 tt ;;
       Vec.set profit_matrix i row')
    profit_matrix.

(** [calculate_expected_values]: the result grid has [profit_matrix.size()]
    rows, each of [profit_matrix[0].size()] zeros; row [i] of the input is
    then transformed into row [i] of the result by a lambda that owns a
    counter [j], starts it at 0 for every row and reads [probabilities[j++]].
    The counter is an [int]; it is carried as a [nat] since it is bounded by
    the length of a row. *)
Definition calculate_expected_values (profit_matrix : list (list double))
    (probabilities : list double) : outcome (list (list double)) :=
  row0 <- Vec.at_ profit_matrix 0 ;;
  let expected_values :=
    Vec.make (length profit_matrix) (Vec.make (length row0) Double.zero) in
  for_loop (length profit_matrix) 0
    (fun i expected_values =>
       src <- Vec.at_ profit_matrix i ;;
       dst <- Vec.at_ expected_values i ;;
       dst' <- transform
                 (fun (j : nat) profit =>
                    p <- Vec.at_ probabilities j ;;
                    Returns ((profit * p)%double, S j))
                 src dst 0 0%nat ;;
       Vec.set expected_values i dst')
    expected_values.

(** [calculate_expected_profits]: one zero per row, overwritten by the
    transform of the rows under [std::accumulate(row, 0.0)]. *)
Definition calculate_expected_profits (expected_values : list (list double))
    : outcome (list double) :=
  let expected_profits := Vec.make (length expected_values) Double.zero in
  transform
    (fun (_ : unit) row => Returns (accumulate row Double.zero, tt))
    expected_values expected_profits 0 tt.

(** The selection loop of [main] (lines 159-170), over the vectors that
    [main] calls [orders] and [expected_profits]. The state is
    [(optimal_order, max_profit)]. Every iteration reads [orders[i]] and
    [expected_profits[i]] for the report line before it compares. *)
Definition optimal_order_loop (orders : list Z) (expected_profits : list double)
    : outcome (Z * double) :=
  let max_profit := Double.lowest in
  let optimal_order := 0 in
  for_loop (length expected_profits) 0
    (fun i best =>
       let '(optimal_order, max_profit) := best in
       o <- Vec.at_ orders i ;;
       e <- Vec.at_ expected_profits i ;;
       if (e > max_profit)%double then Returns (o, e)
       else Returns (optimal_order, max_profit))
    (optimal_order, max_profit).

(** The decimal literals of [main], each the double nearest to the decimal
    it is written as. *)
Definition lit_0_1 : double := S754_finite false 7205759403792794 (-56).
Definition lit_0_15 : double := S754_finite false 5404319552844595 (-55).
Definition lit_0_25 : double := S754_finite false 4503599627370496 (-54).
Definition lit_0_3 : double := S754_finite false 5404319552844595 (-54).
Definition lit_0_2 : double := S754_finite false 7205759403792794 (-55).

Definition default_demands : list Z := [100; 150; 200; 250; 300].
Definition default_probabilities : list double :=
  [lit_0_1; lit_0_15; lit_0_25; lit_0_3; lit_0_2].
Definition default_orders : list Z := [100; 150; 200; 250; 300].

(** The computation of [main] on given vectors, without the printing: the
    four intermediate tables and the selected pair. [print_table] only walks
    the rows of the grid it is given, which are as many as the orders, so it
    adds no access of its own that could leave a vector. *)
Record run : Type := {
  run_profit_matrix : list (list double);
  run_expected_values : list (list double);
  run_expected_profits : list double;
  run_optimal : Z * double
}.

Definition pipeline (demands : list Z) (probabilities : list double)
    (orders : list Z) : outcome run :=
  profit_matrix <- create_profit_matrix orders demands ;;
  expected_values <- calculate_expected_values profit_matrix probabilities ;;
  expected_profits <- calculate_expected_profits expected_values ;;
  optimal <- optimal_order_loop orders expected_profits ;;
  Returns {| run_profit_matrix := profit_matrix;
             run_expected_values := expected_values;
             run_expected_profits := expected_profits;
             run_optimal := optimal |}.

Definition main : outcome run :=
  pipeline default_demands default_probabilities default_orders.

(** ** Console output

    [std::cout] is carried as the sequence of the chunks written to it, one
    per [<<]. The text a [std::format] call produces is put together here,
    except for the fixed-point rendering of a double, which belongs to the
    standard library and is taken as a parameter. *)

Definition newline : string := String (ascii_of_nat 10) EmptyString.

(** [std::format("{}", z)] for an [int]: its decimal numeral. *)
Definition format_int (z : Z) : string := NilZero.string_of_int (Z.to_int z).

Fixpoint spaces (n : nat) : string :=
  match n with
  | O => EmptyString
  | S n' => String " " (spaces n')
  end.

(** [{:<w}]: the text, then spaces up to width [w]. *)
Definition align_left (w : nat) (s : string) : string :=
  String.append s (spaces (w - String.length s)).

(** [{:>w}]: spaces up to width [w], then the text. *)
Definition align_right (w : nat) (s : string) : string :=
  String.append (spaces (w - String.length s)) s.

Section Printing.

(** [std::format("{:.2f}", value)]. *)
Variable format_fixed2 : double -> string.

(** [for (auto x : xs) std::cout << cell_text(x);] *)
Definition print_cells {A : Type} (cell_text : A -> string) (xs : list A)
    (out : list string) : list string :=
  fold_left (fun out x => out ++ [cell_text x]) xs out.

(** [print_table]: the title, the header with one cell per demand, then for
    every row of the matrix the label made from [orders[i]] and one cell per
    value. *)
Definition print_table (orders demands : list Z) (matrix : list (list double))
    (title : string) (out : list string) : outcome (list string) :=
  let out := out ++ [title] ++ [newline] in
  let out := out ++ [align_left 12 "Order\Demand"] in
  let out :=
    print_cells (fun demand => align_right 11 (format_int demand)) demands out in
  let out := out ++ [newline] in
  for_loop (length matrix) 0
    (fun i out =>
       o <- Vec.at_ orders i ;;
       let out := out ++ [align_left 12 (String.append "Order " (format_int o))] in
       row <- Vec.at_ matrix i ;;
       let out :=
         print_cells (fun value => align_right 11 (format_fixed2 value)) row out in
       Returns (out ++ [newline]))
    out.

(** The selection loop of [main] together with the line it prints for
    every order: the state is [(optimal_order, max_profit)] and the output. *)
Definition report_loop (orders : list Z) (expected_profits : list double)
    (out : list string) : outcome (Z * double * list string) :=
  let max_profit := Double.lowest in
  let optimal_order := 0 in
  for_loop (length expected_profits) 0
    (fun i st =>
       let '(optimal_order, max_profit, out) := st in
       o <- Vec.at_ orders i ;;
       e <- Vec.at_ expected_profits i ;;
       let out :=
         out ++ [String.append "For Order "
                  (String.append (format_int o)
                  (String.append ": Expected Profit = "
                  (String.append (format_fixed2 e)
                  (String.append " dollars" newline))))] in
       if (e > max_profit)%double then Returns (o, e, out)
       else Returns (optimal_order, max_profit, out))
    (optimal_order, max_profit, out).

(** [main] on given vectors, printing included; the result is the output. *)
Definition main_report (demands : list Z) (probabilities : list double)
    (orders : list Z) (out : list string) : outcome (list string) :=
  profit_matrix <- create_profit_matrix orders demands ;;
  out <- print_table orders demands profit_matrix "Profit Matrix" out ;;
  expected_values <- calculate_expected_values profit_matrix probabilities ;;
  out <- print_table orders demands expected_values
           (String.append newline "Expected Values (eij*qj)") out ;;
  expected_profits <- calculate_expected_profits expected_values ;;
  let out :=
    out ++ [String.append newline (String.append "Expected Profits:" newline)] in
  st <- report_loop orders expected_profits out ;;
  let '(optimal_order, max_profit, out) := st in
  Returns
    (out ++ [String.append newline
              (String.append "Optimal order quantity: "
              (String.append (format_int optimal_order)
              (String.append newline
              (String.append "Optimal expected profit: "
              (String.append (format_fixed2 max_profit)
              (String.append " dollars" newline))))))]).

End Printing.

(** * Notions used to state the properties *)

(** Cell [i][j] of a grid, when both indices are in range. *)
Definition cell (m : list (list double)) (i j : nat) : option double :=
  match m !! i with
  | Some row => row !! j
  | None => None
  end.

(** A grid of [rows] rows, all of [cols] columns. *)
Definition has_shape (m : list (list double)) (rows cols : nat) : Prop :=
  length m = rows /\ Forall (fun row => length row = cols) m.

(** The sum of the first [n] columns of a row, taken in ascending index
    order from 0.0: the reading of "arithmetic sum accumulated left to
    right" that [std::accumulate] is compared with. *)
Fixpoint sum_columns (row : list double) (n : nat) : double :=
  match n with
  | O => Double.zero
  | S n' =>
      match row !! n' with
      | Some x => (sum_columns row n' + x)%double
      | None => sum_columns row n'
      end
  end.

Definition row_sum (row : list double) : double := sum_columns row (length row).

(** What the loop has established after the indices below [j]: either
    nothing exceeded the initial [lowest] and the initial pair is kept, or
    the pair is the one of an index [k] whose value exceeds [lowest], no
    value seen is greater and no value before [k] is greater or equal. *)
Definition scanned (orders : list Z) (expected_profits : list double)
    (j : nat) (best : Z * double) : Prop :=
  (best = (0, Double.lowest) /\
   forall i e, (i < j)%nat -> expected_profits !! i = Some e ->
     (e > Double.lowest)%double = false) \/
  (exists k, (k < j)%nat /\
     orders !! k = Some best.1 /\ expected_profits !! k = Some best.2 /\
     (best.2 > Double.lowest)%double = true /\
     (forall i e, (i < j)%nat -> expected_profits !! i = Some e ->
        (e > best.2)%double = false) /\
     (forall i e, (i < k)%nat -> expected_profits !! i = Some e ->
        (e >= best.2)%double = false)).

(** [m * 2^n] on positive mantissas, as [shl_align] computes it. *)
Definition shift_left (m : positive) (n : Z) : positive :=
  match n with
  | Zpos d => Pos.iter xO m d
  | _ => m
  end.

(** The canonical binary64 form of a positive integer below 2^53. *)
Definition canon (s : bool) (v : positive) : double :=
  S754_finite s (shift_left v (53 - Zpos (digits2_pos v)))
    (Zpos (digits2_pos v) - 53).


(** Whether a row of the input fits: it is no longer than row 0, which
    sizes every row of the result, and no longer than the probabilities. *)
Definition row_fits (width : nat) (probabilities row : list double) : bool :=
  (length row <=? width)%nat && (length row <=? length probabilities)%nat.

(** A weighted row, filled up with the zeros the result row started with. *)
Definition weighted_row (width : nat) (probabilities row : list double)
    : list double :=
  zip_with Double.mul row probabilities ++
  replicate (width - length row) Double.zero.

(** The weighted sum of a row: products with the probabilities of the same
    index, added from 0.0 in ascending index order. *)
Definition weighted_sum (probabilities row : list double) : double :=
  fold_left (fun acc xq => (acc + xq.1 * xq.2)%double)
    (zip row probabilities) Double.zero.

(** One step of the selection on an (order, expected profit) pair. *)
Definition select (best : Z * double) (candidate : Z * double) : Z * double :=
  if (candidate.2 > best.2)%double then candidate else best.

Definition not_nan (candidate : Z * double) : bool :=
  match candidate.2 with S754_nan => false | _ => true end.

(** The closed form of a run: the profit grid, its weighting, the weighted
    sums and the fold of the selection over them. *)
Definition run_of (demands : list Z) (probabilities : list double)
    (orders : list Z) : run :=
  let profit_matrix := (fun o => calculate_profit o <$> demands) <$> orders in
  let expected_profits := weighted_sum probabilities <$> profit_matrix in
  {| run_profit_matrix := profit_matrix;
     run_expected_values :=
       (fun row => zip_with Double.mul row probabilities) <$> profit_matrix;
     run_expected_profits := expected_profits;
     run_optimal :=
       fold_left select (zip orders expected_profits) (0, Double.lowest) |}.


Section ReportText.

Variable format_fixed2 : double -> string.

(** What [print_table] writes: the title line, the header line with one
    cell per demand, and one line per row of the matrix. *)
Definition table_text (orders demands : list Z) (matrix : list (list double))
    (title : string) : list string :=
  [title; newline; align_left 12 "Order\Demand"] ++
  ((fun demand => align_right 11 (format_int demand)) <$> demands) ++
  [newline] ++
  concat (zip_with
            (fun o row =>
               [align_left 12 (String.append "Order " (format_int o))] ++
               ((fun value => align_right 11 (format_fixed2 value)) <$> row) ++
               [newline])
            orders matrix).

(** The line printed for one order and its expected profit. *)
Definition profit_line (oe : Z * double) : string :=
  String.append "For Order "
    (String.append (format_int oe.1)
    (String.append ": Expected Profit = "
    (String.append (format_fixed2 oe.2)
    (String.append " dollars" newline)))).

(** The closing lines of the report. *)
Definition summary_line (best : Z * double) : string :=
  String.append newline
    (String.append "Optimal order quantity: "
    (String.append (format_int best.1)
    (String.append newline
    (String.append "Optimal expected profit: "
    (String.append (format_fixed2 best.2)
    (String.append " dollars" newline)))))).

(** Everything [main] writes on given vectors. *)
Definition report_text (demands : list Z) (probabilities : list double)
    (orders : list Z) : list string :=
  table_text orders demands
    (run_profit_matrix (run_of demands probabilities orders)) "Profit Matrix" ++
  table_text orders demands
    (run_expected_values (run_of demands probabilities orders))
    (String.append newline "Expected Values (eij*qj)") ++
  [String.append newline (String.append "Expected Profits:" newline)] ++
  (profit_line <$>
     zip orders (run_expected_profits (run_of demands probabilities orders))) ++
  [summary_line (run_optimal (run_of demands probabilities orders))].

End ReportText.

(** * Properties *)

Ltac compare_cases :=
  repeat match goal with
  | H : context [Z.compare ?a ?b] |- _ =>
      destruct (Z.compare_spec a b); try discriminate H
  | H : context [Pos.compare_cont Eq ?a ?b] |- _ =>
      let C := fresh "C" in
      pose proof (Pos.compare_spec a b) as C; unfold Pos.compare in C;
      destruct C; try discriminate H
  | |- context [Z.compare ?a ?b] =>
      destruct (Z.compare_spec a b); try lia
  | |- context [Pos.compare_cont Eq ?a ?b] =>
      let C := fresh "C" in
      pose proof (Pos.compare_spec a b) as C; unfold Pos.compare in C;
      destruct C; try lia
  end.

(** ** Integers *)

Lemma wrap_in_range (z : Z) : Int.in_range z -> Int.wrap z = z.
Proof.
  unfold Int.in_range, Int.min_int, Int.max_int, Int.wrap. intros Hz.
  rewrite Z.mod_small; lia.
Qed.

Lemma sub_nonneg_exact (a b : Z) :
  0 <= a <= Int.max_int -> 0 <= b <= Int.max_int -> Int.sub a b = a - b.
Proof.
  unfold Int.sub, Int.max_int. intros Ha Hb. apply wrap_in_range.
  unfold Int.in_range, Int.min_int, Int.max_int. lia.
Qed.

Lemma std_min_spec (a b : Z) : Int.std_min a b = Z.min a b.
Proof. unfold Int.std_min. destruct (Z.ltb_spec b a); lia. Qed.

Lemma std_max_spec (a b : Z) : Int.std_max a b = Z.max a b.
Proof. unfold Int.std_max. destruct (Z.ltb_spec a b); lia. Qed.

(** ** Integers held in doubles

    An integer below 2^53 in magnitude has an exact binary64 form, and sums,
    differences and products of such integers are computed without rounding
    as long as the result stays below 2^53. *)

Lemma shift_left_spec (m : positive) (n : Z) :
  0 <= n -> Zpos (shift_left m n) = Zpos m * 2 ^ n.
Proof.
  intros Hn. destruct n as [|d|d]; simpl; [lia| |lia].
  rewrite <- Z.shiftl_mul_pow2 by lia. simpl.
  apply (Pos.iter_swap_gen _ _ Zpos xO (Z.mul 2)). reflexivity.
Qed.

Lemma digits2_pos_size (p : positive) : digits2_pos p = Pos.size p.
Proof. induction p as [p IH|p IH|]; simpl; [rewrite IH ..|]; reflexivity. Qed.

Lemma digits2_log2 (p : positive) :
  Zpos (digits2_pos p) = Z.log2 (Zpos p) + 1.
Proof.
  rewrite digits2_pos_size. destruct p as [p|p|]; simpl; lia.
Qed.

Lemma digits2_shift (m : positive) (n : Z) :
  0 <= n -> Zpos (digits2_pos (shift_left m n)) = Zpos (digits2_pos m) + n.
Proof.
  intros Hn. rewrite !digits2_log2, shift_left_spec by exact Hn.
  rewrite Z.log2_mul_pow2 by lia. lia.
Qed.

Lemma iter_pos_nat {A : Type} (f : A -> A) (n : positive) :
  forall x, SpecFloat.iter_pos f n x = Nat.iter (Pos.to_nat n) f x.
Proof.
  induction n as [n IH|n IH|]; intros x.
  - change (SpecFloat.iter_pos f n~1 x)
      with (SpecFloat.iter_pos f n (SpecFloat.iter_pos f n (f x))).
    rewrite !IH, Pos2Nat.inj_xI.
    replace (S (2 * Pos.to_nat n)) with (Pos.to_nat n + (Pos.to_nat n + 1))%nat
      by lia.
    rewrite !Nat.iter_add. reflexivity.
  - change (SpecFloat.iter_pos f n~0 x)
      with (SpecFloat.iter_pos f n (SpecFloat.iter_pos f n x)).
    rewrite !IH, Pos2Nat.inj_xO.
    replace (2 * Pos.to_nat n)%nat with (Pos.to_nat n + Pos.to_nat n)%nat by lia.
    rewrite Nat.iter_add. reflexivity.
  - reflexivity.
Qed.

Lemma shr_exact_nat (m : positive) (k : nat) :
  Nat.iter k shr_1 (Build_shr_record (Zpos (Nat.iter k xO m)) false false)
    = Build_shr_record (Zpos m) false false.
Proof.
  induction k as [|k IH]; [reflexivity|].
  rewrite Nat.iter_succ_r. simpl. exact IH.
Qed.

Lemma shr_exact (m : positive) (e n : Z) :
  0 <= n ->
  shr (Build_shr_record (Zpos (shift_left m n)) false false) e n
    = (Build_shr_record (Zpos m) false false, e + n).
Proof.
  intros Hn. destruct n as [|d|d]; simpl; [f_equal; lia| |lia].
  f_equal. rewrite iter_pos_nat, Pos2Nat.inj_iter.
  apply shr_exact_nat.
Qed.

Lemma shift_left_0 (m : positive) : shift_left m 0 = m.
Proof. reflexivity. Qed.

Lemma shift_left_add (m : positive) (a b : Z) :
  0 <= a -> 0 <= b -> shift_left (shift_left m a) b = shift_left m (a + b).
Proof.
  intros Ha Hb. apply Pos2Z.inj.
  rewrite !shift_left_spec, Z.pow_add_r by lia. lia.
Qed.

(** Rounding a mantissa that is a 53-bit one followed by [n] zero bits
    drops the zeros and nothing else. *)
Lemma binary_round_aux_exact (s : bool) (mc : positive) (t n : Z) :
  Zpos (digits2_pos mc) = 53 -> -1074 <= t <= 971 -> 0 <= n ->
  binary_round_aux Double.prec Double.emax s (Zpos (shift_left mc n)) (t - n) loc_Exact
    = S754_finite s mc t.
Proof.
  intros Hd Ht Hn. unfold binary_round_aux, shr_fexp.
  unfold Zdigits2 at 1. rewrite digits2_shift, Hd by exact Hn.
  replace (fexp Double.prec Double.emax (53 + n + (t - n)) - (t - n)) with n
    by (unfold fexp, emin, Double.prec, Double.emax; lia).
  unfold shr_record_of_loc at 1. rewrite shr_exact by exact Hn.
  simpl loc_of_shr_record. simpl shr_m. simpl round_nearest_even.
  unfold Zdigits2. rewrite Hd.
  replace (fexp Double.prec Double.emax (53 + (t - n + n)) - (t - n + n)) with 0
    by (unfold fexp, emin, Double.prec, Double.emax; lia).
  simpl. replace (t - n + n) with t by lia.
  destruct (Z.leb_spec t (Double.emax - Double.prec)) as [_|Hgt];
    [reflexivity | unfold Double.emax, Double.prec in Hgt; lia].
Qed.

Lemma shift_left_neg (m : positive) (n : Z) : n <= 0 -> shift_left m n = m.
Proof. destruct n; try reflexivity. lia. Qed.

Lemma shl_align_shift (m : positive) (e e' : Z) :
  shl_align m e e' = (shift_left m (e - e'), Z.min e e').
Proof.
  unfold shl_align. destruct (e' - e) as [|d|d] eqn:E.
  - rewrite shift_left_neg by lia. f_equal. lia.
  - rewrite shift_left_neg by lia. f_equal. lia.
  - replace (e - e') with (Zpos d) by lia. simpl. f_equal. lia.
Qed.

Lemma binary_round_scaled (s : bool) (v : positive) (k : Z) :
  Zpos (digits2_pos v) <= 53 -> 0 <= k <= 1000 ->
  binary_round Double.prec Double.emax s (shift_left v k) (- k) = canon s v.
Proof.
  intros Hd Hk. unfold binary_round, canon.
  rewrite digits2_shift by lia.
  pose proof (Pos2Z.is_pos (digits2_pos v)) as Hpos.
  set (dv := Zpos (digits2_pos v)) in *.
  replace (fexp Double.prec Double.emax (dv + k + - k)) with (dv - 53)
    by (unfold fexp, emin, Double.prec, Double.emax; lia).
  rewrite shl_align_shift.
  assert (Hmc : Zpos (digits2_pos (shift_left v (53 - dv))) = 53)
    by (rewrite digits2_shift by lia; fold dv; lia).
  destruct (Z.le_gt_cases (dv - 53 + k) 0) as [Hle|Hgt].
  - rewrite shift_left_add by lia.
    replace (k + (- k - (dv - 53))) with (53 - dv) by lia.
    replace (Z.min (- k) (dv - 53)) with (dv - 53 - 0) by lia.
    rewrite <- (shift_left_0 (shift_left v (53 - dv))) at 1.
    apply binary_round_aux_exact; [exact Hmc|lia|lia].
  - rewrite (shift_left_neg _ (- k - (dv - 53))) by lia.
    replace (Z.min (- k) (dv - 53)) with (dv - 53 - (dv - 53 + k)) by lia.
    replace (shift_left v k)
      with (shift_left (shift_left v (53 - dv)) (dv - 53 + k))
      by (rewrite shift_left_add by lia; f_equal; lia).
    apply binary_round_aux_exact; [exact Hmc|lia|lia].
Qed.

Lemma digits2_bound (v : positive) :
  Zpos v < 2 ^ 53 -> Zpos (digits2_pos v) <= 53.
Proof.
  intros Hv. rewrite digits2_log2.
  apply Z.log2_lt_pow2 in Hv; lia.
Qed.

Lemma of_int_pos (v : positive) :
  Zpos v < 2 ^ 53 -> Double.of_int (Zpos v) = canon false v.
Proof.
  intros Hv. unfold Double.of_int, binary_normalize.
  rewrite <- (shift_left_0 v) at 1.
  apply (binary_round_scaled false v 0); [apply digits2_bound; exact Hv|lia].
Qed.

Lemma of_int_neg (v : positive) :
  Zpos v < 2 ^ 53 -> Double.of_int (Zneg v) = canon true v.
Proof.
  intros Hv. unfold Double.of_int, binary_normalize.
  rewrite <- (shift_left_0 v) at 1.
  apply (binary_round_scaled true v 0); [apply digits2_bound; exact Hv|lia].
Qed.

(** Normalising [z * 2^k] at exponent [-k] gives the double of [z]. *)
Lemma binary_normalize_scaled (z k : Z) :
  Z.abs z < 2 ^ 53 -> 0 <= k <= 1000 ->
  binary_normalize Double.prec Double.emax (z * 2 ^ k) (- k) false = Double.of_int z.
Proof.
  intros Hz Hk. destruct z as [|v|v].
  - reflexivity.
  - rewrite of_int_pos by exact Hz.
    rewrite <- shift_left_spec by lia. simpl.
    apply binary_round_scaled; [apply digits2_bound; exact Hz|lia].
  - rewrite of_int_neg by exact Hz.
    replace (Zneg v * 2 ^ k) with (- (Zpos v * 2 ^ k)) by lia.
    rewrite <- shift_left_spec by lia. simpl.
    apply binary_round_scaled; [apply digits2_bound; exact Hz|lia].
Qed.

Lemma canon_aligned (v : positive) (ez : Z) :
  Zpos (digits2_pos v) <= 53 -> ez <= Zpos (digits2_pos v) - 53 ->
  Zpos (fst (shl_align (shift_left v (53 - Zpos (digits2_pos v)))
                       (Zpos (digits2_pos v) - 53) ez))
    = Zpos v * 2 ^ (- ez).
Proof.
  intros Hd He. rewrite shl_align_shift. simpl fst.
  rewrite shift_left_add, shift_left_spec by lia. f_equal. f_equal. lia.
Qed.

Lemma add_canon (sa sb : bool) (va vb : positive) :
  Zpos va < 2 ^ 53 -> Zpos vb < 2 ^ 53 ->
  Z.abs (cond_Zopp sa (Zpos va) + cond_Zopp sb (Zpos vb)) < 2 ^ 53 ->
  Double.add (canon sa va) (canon sb vb)
    = Double.of_int (cond_Zopp sa (Zpos va) + cond_Zopp sb (Zpos vb)).
Proof.
  intros Ha Hb Hab. unfold canon, Double.add, SFadd.
  pose proof (digits2_bound va Ha) as Hda.
  pose proof (digits2_bound vb Hb) as Hdb.
  pose proof (Pos2Z.is_pos (digits2_pos va)) as Hpa.
  pose proof (Pos2Z.is_pos (digits2_pos vb)) as Hpb.
  cbv zeta.
  set (ez := Z.min (Zpos (digits2_pos va) - 53) (Zpos (digits2_pos vb) - 53)).
  rewrite !canon_aligned by lia.
  replace (cond_Zopp sa (Zpos va * 2 ^ (- ez)) + cond_Zopp sb (Zpos vb * 2 ^ (- ez)))
    with ((cond_Zopp sa (Zpos va) + cond_Zopp sb (Zpos vb)) * 2 ^ (- ez))
    by (destruct sa, sb; simpl; lia).
  replace ez with (- - ez) at 2 by lia.
  apply binary_normalize_scaled; [exact Hab|lia].
Qed.

Lemma sub_canon (sa sb : bool) (va vb : positive) :
  Zpos va < 2 ^ 53 -> Zpos vb < 2 ^ 53 ->
  Z.abs (cond_Zopp sa (Zpos va) - cond_Zopp sb (Zpos vb)) < 2 ^ 53 ->
  Double.sub (canon sa va) (canon sb vb)
    = Double.of_int (cond_Zopp sa (Zpos va) - cond_Zopp sb (Zpos vb)).
Proof.
  intros Ha Hb Hab. unfold canon, Double.sub, SFsub.
  pose proof (digits2_bound va Ha) as Hda.
  pose proof (digits2_bound vb Hb) as Hdb.
  pose proof (Pos2Z.is_pos (digits2_pos va)) as Hpa.
  pose proof (Pos2Z.is_pos (digits2_pos vb)) as Hpb.
  cbv zeta.
  set (ez := Z.min (Zpos (digits2_pos va) - 53) (Zpos (digits2_pos vb) - 53)).
  rewrite !canon_aligned by lia.
  replace (cond_Zopp sa (Zpos va * 2 ^ (- ez)) - cond_Zopp sb (Zpos vb * 2 ^ (- ez)))
    with ((cond_Zopp sa (Zpos va) - cond_Zopp sb (Zpos vb)) * 2 ^ (- ez))
    by (destruct sa, sb; simpl; lia).
  replace ez with (- - ez) at 2 by lia.
  apply binary_normalize_scaled; [exact Hab|lia].
Qed.

Lemma mul_canon (sa sb : bool) (va vb : positive) :
  Zpos (va * vb) < 2 ^ 53 ->
  Double.mul (canon sa va) (canon sb vb) = canon (xorb sa sb) (va * vb).
Proof.
  intros Hab. unfold canon, Double.mul, SFmul.
  assert (Ha : Zpos va < 2 ^ 53) by nia.
  assert (Hb : Zpos vb < 2 ^ 53) by nia.
  pose proof (digits2_bound va Ha) as Hda.
  pose proof (digits2_bound vb Hb) as Hdb.
  pose proof (digits2_bound _ Hab) as Hdc.
  assert (Hlow : Zpos (digits2_pos va) + Zpos (digits2_pos vb) - 1
                   <= Zpos (digits2_pos (va * vb))).
  { rewrite !digits2_log2, Pos2Z.inj_mul.
    pose proof (Z.log2_mul_below (Zpos va) (Zpos vb)). lia. }
  set (da := Zpos (digits2_pos va)) in *.
  set (db := Zpos (digits2_pos vb)) in *.
  set (dc := Zpos (digits2_pos (va * vb))) in *.
  replace (shift_left va (53 - da) * shift_left vb (53 - db))%positive
    with (shift_left (shift_left (va * vb) (53 - dc)) (dc + 53 - da - db)).
  2:{ apply Pos2Z.inj.
      rewrite Pos2Z.inj_mul, !shift_left_spec, Pos2Z.inj_mul by lia.
      replace (53 - da) with ((53 - dc) + (dc + 53 - da - db) - (53 - db)) at 2
        by lia.
      rewrite <- Z.mul_assoc, <- Z.pow_add_r by lia.
      replace (53 - dc + (dc + 53 - da - db)) with ((53 - da) + (53 - db)) by lia.
      rewrite Z.pow_add_r by lia. lia. }
  replace (da - 53 + (db - 53)) with (dc - 53 - (dc + 53 - da - db)) by lia.
  apply binary_round_aux_exact; [|lia|lia].
  rewrite digits2_shift by lia. fold dc. lia.
Qed.

Lemma of_int_mul (a b : Z) :
  0 <= a < 2 ^ 53 -> 0 <= b < 2 ^ 53 -> a * b < 2 ^ 53 ->
  Double.mul (Double.of_int a) (Double.of_int b) = Double.of_int (a * b).
Proof.
  intros Ha Hb Hab. destruct a as [|va|va], b as [|vb|vb];
    try lia; try reflexivity.
  - rewrite (of_int_pos vb) by lia. reflexivity.
  - rewrite (of_int_pos va) by lia. reflexivity.
  - rewrite (of_int_pos va), (of_int_pos vb) by lia.
    rewrite mul_canon by exact Hab.
    change (Zpos va * Zpos vb) with (Zpos (va * vb)) in *.
    rewrite (of_int_pos (va * vb)) by exact Hab. reflexivity.
Qed.

Lemma of_int_canon (z : Z) :
  z <> 0 -> Z.abs z < 2 ^ 53 ->
  exists s v, Double.of_int z = canon s v /\ cond_Zopp s (Zpos v) = z /\ Zpos v < 2 ^ 53.
Proof.
  intros Hz Hlt. destruct z as [|v|v]; [congruence| |].
  - exists false, v. split; [apply of_int_pos; exact Hlt|]. split; [reflexivity|exact Hlt].
  - exists true, v. split; [apply of_int_neg; exact Hlt|]. split; [reflexivity|exact Hlt].
Qed.

Lemma of_int_add (a b : Z) :
  Z.abs a < 2 ^ 53 -> Z.abs b < 2 ^ 53 -> Z.abs (a + b) < 2 ^ 53 ->
  Double.add (Double.of_int a) (Double.of_int b) = Double.of_int (a + b).
Proof.
  intros Ha Hb Hab.
  destruct (Z.eq_dec a 0) as [->|Hna].
  { rewrite Z.add_0_l. destruct b; try reflexivity.
    - rewrite !(of_int_pos p) by exact Hb. reflexivity.
    - rewrite !(of_int_neg p) by exact Hb. reflexivity. }
  destruct (Z.eq_dec b 0) as [->|Hnb].
  { rewrite Z.add_0_r. destruct a; try reflexivity.
    - rewrite !(of_int_pos p) by exact Ha. reflexivity.
    - rewrite !(of_int_neg p) by exact Ha. reflexivity. }
  destruct (of_int_canon a Hna Ha) as (sa & va & -> & <- & Hva).
  destruct (of_int_canon b Hnb Hb) as (sb & vb & -> & <- & Hvb).
  apply add_canon; assumption.
Qed.

Lemma of_int_sub (a b : Z) :
  Z.abs a < 2 ^ 53 -> Z.abs b < 2 ^ 53 -> Z.abs (a - b) < 2 ^ 53 ->
  Double.sub (Double.of_int a) (Double.of_int b) = Double.of_int (a - b).
Proof.
  intros Ha Hb Hab.
  destruct (Z.eq_dec b 0) as [->|Hnb].
  { rewrite Z.sub_0_r. destruct a; try reflexivity.
    - rewrite !(of_int_pos p) by exact Ha. reflexivity.
    - rewrite !(of_int_neg p) by exact Ha. reflexivity. }
  destruct (Z.eq_dec a 0) as [->|Hna].
  { destruct b; try congruence.
    - rewrite (of_int_pos p) by exact Hb.
      change (0 - Zpos p) with (Zneg p).
      rewrite (of_int_neg p) by exact Hb. reflexivity.
    - rewrite (of_int_neg p) by exact Hb.
      change (0 - Zneg p) with (Zpos p).
      rewrite (of_int_pos p) by exact Hb. reflexivity. }
  destruct (of_int_canon a Hna Ha) as (sa & va & -> & <- & Hva).
  destruct (of_int_canon b Hnb Hb) as (sb & vb & -> & <- & Hvb).
  apply sub_canon; assumption.
Qed.

(** ** The profit function *)

Lemma calculate_profit_unfold (order demand : Z) :
  0 <= order <= Int.max_int ->
  0 <= demand <= Int.max_int ->
  calculate_profit order demand =
    (Double.of_int 49000 * Double.of_int (Z.min order demand) +
     Double.of_int 15000 * Double.of_int (Z.max 0 (order - demand)) -
     Double.of_int 25000 * Double.of_int order)%double.
Proof.
  intros Ho Hd. unfold calculate_profit.
  rewrite std_min_spec, std_max_spec, sub_nonneg_exact by assumption.
  reflexivity.
Qed.

(** No operation of [calculate_profit] rounds: every intermediate value is
    an integer below 2^53 in magnitude. *)
Lemma calculate_profit_exact (order demand : Z) :
  0 <= order <= Int.max_int ->
  0 <= demand <= Int.max_int ->
  calculate_profit order demand =
    Double.of_int (49000 * Z.min order demand +
                   15000 * Z.max 0 (order - demand) - 25000 * order).
Proof.
  intros Ho Hd. rewrite calculate_profit_unfold by assumption.
  unfold Int.max_int in *.
  assert (H53 : 2 ^ 53 = 9007199254740992) by reflexivity.
  assert (H31 : 2 ^ 31 = 2147483648) by reflexivity.
  rewrite !of_int_mul by lia.
  rewrite of_int_add by lia.
  rewrite of_int_sub by lia.
  reflexivity.
Qed.

(** C1. For every order >= 0 and demand >= 0 (both of type [int]), the
    profit function returns
    primary_price * min(order, demand) + secondary_price * max(0, order - demand)
    - cost_per_unit * order with the prices 49000, 15000 and 25000: as the
    binary64 evaluation of that expression, and as the double that holds its
    exact integer value, since nothing wraps and nothing rounds. *)
Theorem calculate_profit_formula (order demand : Z) :
  0 <= order <= Int.max_int ->
  0 <= demand <= Int.max_int ->
  calculate_profit order demand =
    (Double.of_int 49000 * Double.of_int (Z.min order demand) +
     Double.of_int 15000 * Double.of_int (Z.max 0 (order - demand)) -
     Double.of_int 25000 * Double.of_int order)%double /\
  calculate_profit order demand =
    Double.of_int (49000 * Z.min order demand +
                   15000 * Z.max 0 (order - demand) - 25000 * order).
Proof.
  intros Ho Hd. split.
  - apply calculate_profit_unfold; assumption.
  - apply calculate_profit_exact; assumption.
Qed.

Lemma calculate_profit_formula_witness :
  calculate_profit 300 100 =
    (Double.of_int 49000 * Double.of_int (Z.min 300 100) +
     Double.of_int 15000 * Double.of_int (Z.max 0 (300 - 100)) -
     Double.of_int 25000 * Double.of_int 300)%double /\
  calculate_profit 300 100 =
    Double.of_int (49000 * Z.min 300 100 +
                   15000 * Z.max 0 (300 - 100) - 25000 * 300).
Proof.
  apply (calculate_profit_formula 300 100); unfold Int.max_int; lia.
Defined.

(** C9. For every demand >= 0, the profit of ordering nothing is 0. *)
Theorem calculate_profit_zero_order (demand : Z) :
  0 <= demand <= Int.max_int ->
  calculate_profit 0 demand = Double.zero.
Proof.
  intros Hd. rewrite calculate_profit_exact by (unfold Int.max_int in *; lia).
  replace (Z.min 0 demand) with 0 by lia.
  replace (Z.max 0 (0 - demand)) with 0 by lia.
  reflexivity.
Qed.

Lemma calculate_profit_zero_order_witness :
  calculate_profit 0 250 = Double.zero.
Proof.
  apply (calculate_profit_zero_order 250); unfold Int.max_int; lia.
Defined.

(** ** Vectors, loops and transforms *)

Lemma at_lookup {A : Type} (v : list A) (i : nat) (x : A) :
  v !! i = Some x -> Vec.at_ v i = Returns x.
Proof. unfold Vec.at_. intros ->. reflexivity. Qed.

Lemma at_oob {A : Type} (v : list A) (i : nat) :
  (length v <= i)%nat -> Vec.at_ v i = OutOfBounds.
Proof.
  unfold Vec.at_. intros Hi. rewrite (lookup_ge_None_2 v i Hi). reflexivity.
Qed.

Lemma set_lt {A : Type} (v : list A) (i : nat) (x : A) :
  (i < length v)%nat -> Vec.set v i x = Returns (<[i := x]> v).
Proof. unfold Vec.set. intros Hi. case_decide; [reflexivity | lia]. Qed.

(** A loop whose body returns and re-establishes [P] at every index returns,
    and [P] holds of the final state. *)
Lemma for_loop_inv {St : Type} (P : nat -> St -> Prop)
    (body : nat -> St -> outcome St) (n : nat) :
  forall (i : nat) (st : St),
    P i st ->
    (forall j s, (i <= j < i + n)%nat -> P j s ->
       exists s', body j s = Returns s' /\ P (S j) s') ->
    exists s', for_loop n i body st = Returns s' /\ P (i + n)%nat s'.
Proof.
  induction n as [|n IH]; intros i st HP Hstep; simpl.
  - exists st. split; [reflexivity|]. replace (i + 0)%nat with i by lia. exact HP.
  - destruct (Hstep i st ltac:(lia) HP) as (s1 & Hb & HP1).
    rewrite Hb. simpl.
    destruct (IH (S i) s1 HP1) as (s2 & Hl & HP2).
    + intros j s Hj. apply Hstep. lia.
    + exists s2. split; [exact Hl|].
      replace (i + S n)%nat with (S i + n)%nat by lia. exact HP2.
Qed.

(** Splitting a loop after its first [a] iterations. *)
Lemma for_loop_split {St : Type} (body : nat -> St -> outcome St) (a b : nat) :
  forall (i : nat) (st : St),
    for_loop (a + b) i body st =
    (st' <- for_loop a i body st ;; for_loop b (i + a) body st').
Proof.
  induction a as [|a IH]; intros i st; simpl.
  - replace (i + 0)%nat with i by lia. reflexivity.
  - destruct (body i st) as [s1| |]; simpl; try reflexivity.
    rewrite IH. replace (S i + a)%nat with (i + S a)%nat by lia. reflexivity.
Qed.

Lemma for_loop_no_fail {St : Type} (body : nat -> St -> outcome St) (n : nat) :
  (forall j s k, body j s <> Fails k) ->
  forall (i : nat) (st : St) (k : error_kind), for_loop n i body st <> Fails k.
Proof.
  intros Hb. induction n as [|n IH]; intros i st k; simpl; [discriminate|].
  destruct (body i st) as [s1|k1|] eqn:E; simpl.
  - apply IH.
  - exfalso. exact (Hb _ _ _ E).
  - discriminate.
Qed.

Lemma transform_no_fail {A B St : Type} (f : St -> A -> outcome (B * St))
    (src : list A) :
  (forall s x k, f s x <> Fails k) ->
  forall (dst : list B) (n : nat) (s : St) (k : error_kind),
    transform f src dst n s <> Fails k.
Proof.
  intros Hf. induction src as [|x src IH]; intros dst n s k; simpl; [discriminate|].
  destruct (f s x) as [r|k1|] eqn:E; simpl.
  - unfold Vec.set. case_decide; simpl; [apply IH | discriminate].
  - exfalso. exact (Hf _ _ _ E).
  - discriminate.
Qed.

(** A transform under a function that always returns and leaves its state
    alone overwrites the positions [k .. k + |src|) of the destination. *)
Lemma transform_pure {A B St : Type} (f : St -> A -> outcome (B * St))
    (g : A -> B) (src : list A) :
  forall (dst : list B) (k : nat) (s : St),
    (forall s' x, f s' x = Returns (g x, s')) ->
    (k + length src <= length dst)%nat ->
    transform f src dst k s =
      Returns (take k dst ++ (g <$> src) ++ drop (k + length src) dst).
Proof.
  induction src as [|x src IH]; intros dst k s Hf Hlen; simpl in *.
  - rewrite Nat.add_0_r, take_drop. reflexivity.
  - rewrite Hf. simpl. rewrite set_lt by lia. simpl.
    rewrite IH by (try rewrite length_insert; first [exact Hf | lia]).
    f_equal.
    rewrite (take_S_r (<[k := g x]> dst) k (g x))
      by (apply list_lookup_insert_eq; lia).
    rewrite take_insert_ge by lia.
    rewrite drop_insert_lt by lia.
    rewrite <- app_assoc. simpl.
    replace (S (k + length src)) with (k + S (length src))%nat by lia.
    reflexivity.
Qed.

(** ** The profit matrix *)

Lemma create_profit_matrix_eq (orders demands : list Z) :
  create_profit_matrix orders demands =
    Returns ((fun o => calculate_profit o <$> demands) <$> orders).
Proof.
  unfold create_profit_matrix, Vec.make.
  set (zrow := replicate (length demands) Double.zero).
  set (rowof := fun o => calculate_profit o <$> demands).
  set (body := fun (i : nat) (pm : list (list double)) => _).
  destruct (for_loop_inv
    (fun j pm => (j <= length orders)%nat /\
       pm = (rowof <$> take j orders) ++ replicate (length orders - j) zrow)
    body (length orders) 0 (replicate (length orders) zrow)) as (pm & Hrun & _ & Hpm).
  - split; [lia|]. rewrite take_0, Nat.sub_0_r. reflexivity.
  - intros j s Hj [_ ->].
    destruct (lookup_lt_is_Some_2 orders j ltac:(lia)) as [o Ho].
    assert (Hlen : length (rowof <$> take j orders) = j)
      by (rewrite length_fmap, length_take; lia).
    unfold body.
    rewrite (at_lookup _ j zrow).
    2:{ rewrite lookup_app_r by lia. rewrite Hlen, Nat.sub_diag.
        apply lookup_replicate_2. lia. }
    simpl.
    rewrite (transform_pure _ (calculate_profit o)).
    2:{ intros [] x. rewrite (at_lookup _ _ _ Ho). reflexivity. }
    2:{ unfold zrow. rewrite length_replicate. lia. }
    simpl. rewrite drop_ge, app_nil_r
      by (unfold zrow; rewrite length_replicate; lia).
    rewrite set_lt by (rewrite length_app, Hlen, length_replicate; lia).
    eexists. split; [reflexivity|]. split; [lia|].
    rewrite insert_app_r_alt by lia. rewrite Hlen, Nat.sub_diag.
    rewrite (take_S_r _ _ _ Ho), fmap_app, <- app_assoc. simpl.
    replace (length orders - j)%nat with (S (length orders - S j)) by lia.
    reflexivity.
  - rewrite Hrun, Hpm. simpl.
    rewrite Nat.sub_diag, take_ge, app_nil_r by lia. reflexivity.
Qed.

Lemma profit_grid_shape (orders demands : list Z) :
  has_shape ((fun o => calculate_profit o <$> demands) <$> orders)
    (length orders) (length demands).
Proof.
  split; [apply length_fmap|].
  apply Forall_forall. intros row Hrow.
  apply list_elem_of_fmap in Hrow. destruct Hrow as (o & -> & _).
  apply length_fmap.
Qed.

(** C2. For every pair of sequences orders and demands, the matrix builder
    returns a grid of len(orders) rows and len(demands) columns whose
    cell[i][j] is the profit of orders[i] and demands[j]. *)
Theorem create_profit_matrix_cells (orders demands : list Z) :
  exists m,
    create_profit_matrix orders demands = Returns m /\
    has_shape m (length orders) (length demands) /\
    forall i j o d,
      orders !! i = Some o -> demands !! j = Some d ->
      cell m i j = Some (calculate_profit o d).
Proof.
  eexists. split; [apply create_profit_matrix_eq|]. split.
  - apply profit_grid_shape.
  - intros i j o d Ho Hd. unfold cell.
    rewrite list_lookup_fmap_Some_2 with (x := o) by exact Ho.
    apply (list_lookup_fmap_Some_2 (calculate_profit o)). exact Hd.
Qed.

(** ** Weighting by the probabilities *)

Section Weighting.

Variable probabilities : list double.

(** The lambda of [calculate_expected_values], with its counter as state. *)
Let weigh (j : nat) (profit : double) : outcome (double * nat) :=
  p <- Vec.at_ probabilities j ;; Returns ((profit * p)%double, S j).

(** Run over a row while the counter stays inside [probabilities] and the
    output iterator inside the destination, the lambda multiplies element
    [n] of the row by [probabilities[j + n]]. *)
Lemma transform_weight (src : list double) :
  forall (dst : list double) (k j : nat),
    (j + length src <= length probabilities)%nat ->
    (k + length src <= length dst)%nat ->
    transform weigh src dst k j =
    Returns (take k dst ++ zip_with Double.mul src (drop j probabilities) ++
             drop (k + length src) dst).
Proof.
  induction src as [|x src IH]; intros dst k j Hj Hk; simpl in *.
  - rewrite Nat.add_0_r, take_drop. reflexivity.
  - destruct (lookup_lt_is_Some_2 probabilities j ltac:(lia)) as [p Hp].
    unfold weigh at 1. rewrite (at_lookup _ _ _ Hp). simpl.
    rewrite set_lt by lia. simpl.
    rewrite IH by (try rewrite length_insert; lia).
    f_equal.
    rewrite (take_S_r (<[k := (x * p)%double]> dst) k (x * p)%double)
      by (apply list_lookup_insert_eq; lia).
    rewrite take_insert_ge by lia.
    rewrite drop_insert_lt by lia.
    rewrite (drop_S _ _ _ Hp).
    rewrite <- app_assoc. simpl.
    replace (S (k + length src)) with (k + S (length src))%nat by lia.
    reflexivity.
Qed.

(** A row longer than what is left of [probabilities] makes the lambda
    read past the end, whatever the destination. *)
Lemma transform_weight_oob (src : list double) :
  forall (dst : list double) (k j : nat),
    (j <= length probabilities < j + length src)%nat ->
    transform weigh src dst k j = OutOfBounds.
Proof.
  induction src as [|x src IH]; intros dst k j Hj; simpl in *; [lia|].
  unfold weigh at 1, Vec.at_.
  destruct (probabilities !! j) as [p|] eqn:Hp; simpl.
  - unfold Vec.set. case_decide; simpl; [|reflexivity].
    apply IH. apply lookup_lt_Some in Hp. lia.
  - reflexivity.
Qed.

End Weighting.

Lemma calculate_expected_values_nil (probabilities : list double) :
  calculate_expected_values [] probabilities = OutOfBounds.
Proof. reflexivity. Qed.

Lemma calculate_expected_values_short (row0 : list double)
    (rest : list (list double)) (probabilities : list double) :
  (length probabilities < length row0)%nat ->
  calculate_expected_values (row0 :: rest) probabilities = OutOfBounds.
Proof.
  intros Hlen. unfold calculate_expected_values. simpl.
  rewrite transform_weight_oob by (simpl; lia). reflexivity.
Qed.

Lemma calculate_expected_values_eq (m : list (list double))
    (probabilities : list double) (rows cols : nat) :
  has_shape m rows cols -> (0 < rows)%nat -> (cols <= length probabilities)%nat ->
  calculate_expected_values m probabilities =
    Returns ((fun row => zip_with Double.mul row probabilities) <$> m).
Proof.
  intros [Hrows Hcols] Hpos Hp. unfold calculate_expected_values, Vec.make.
  destruct m as [|row0 rest] eqn:Em; [simpl in Hrows; lia|]. rewrite <- Em in *.
  assert (H0 : m !! 0%nat = Some row0) by (rewrite Em; reflexivity).
  rewrite (at_lookup _ _ _ H0). simpl.
  assert (Hrow0 : length row0 = cols).
  { rewrite Forall_forall in Hcols. apply Hcols. rewrite Em. left. }
  rewrite Hrow0.
  set (zrow := replicate cols Double.zero).
  set (wrow := fun row : list double => zip_with Double.mul row probabilities).
  set (body := fun (i : nat) (ev : list (list double)) => _).
  destruct (for_loop_inv
    (fun j ev => (j <= length m)%nat /\
       ev = (wrow <$> take j m) ++ replicate (length m - j) zrow)
    body (length m) 0 (replicate (length m) zrow)) as (ev & Hrun & _ & Hev).
  - split; [lia|]. rewrite take_0, Nat.sub_0_r. reflexivity.
  - intros j s Hj [_ ->].
    destruct (lookup_lt_is_Some_2 m j ltac:(lia)) as [src Hsrc].
    assert (Hsrclen : length src = cols).
    { rewrite Forall_forall in Hcols. apply Hcols.
      eapply list_elem_of_lookup_2. exact Hsrc. }
    assert (Hlen : length (wrow <$> take j m) = j)
      by (rewrite length_fmap, length_take; lia).
    unfold body.
    rewrite (at_lookup _ _ _ Hsrc). simpl.
    rewrite (at_lookup _ j zrow).
    2:{ rewrite lookup_app_r by lia. rewrite Hlen, Nat.sub_diag.
        apply lookup_replicate_2. lia. }
    simpl.
    rewrite transform_weight
      by (unfold zrow; try rewrite length_replicate; lia).
    simpl. rewrite drop_0.
    rewrite drop_ge, app_nil_r by (unfold zrow; rewrite length_replicate; lia).
    rewrite set_lt by (rewrite length_app, Hlen, length_replicate; lia).
    eexists. split; [reflexivity|]. split; [lia|].
    rewrite insert_app_r_alt by lia. rewrite Hlen, Nat.sub_diag.
    rewrite (take_S_r _ _ _ Hsrc), fmap_app, <- app_assoc. simpl.
    replace (length m - j)%nat with (S (length m - S j)) by lia.
    reflexivity.
  - rewrite Hrun, Hev. simpl.
    rewrite Nat.sub_diag, take_ge, app_nil_r by lia. reflexivity.
Qed.

Lemma calculate_expected_values_no_fail (m : list (list double))
    (probabilities : list double) (k : error_kind) :
  calculate_expected_values m probabilities <> Fails k.
Proof.
  unfold calculate_expected_values, Vec.at_.
  destruct (m !! 0%nat) as [row0|]; simpl; [|discriminate].
  apply for_loop_no_fail. clear k. intros j s k.
  destruct (m !! j) as [src|]; simpl; [|discriminate].
  destruct (s !! j) as [dst|]; simpl; [|discriminate].
  match goal with
  | |- bind ?t _ <> _ => destruct t as [dst'|k'|] eqn:E
  end; simpl.
  - unfold Vec.set. case_decide; discriminate.
  - exfalso. revert E. apply transform_no_fail.
    intros j' x k''. destruct (probabilities !! j'); discriminate.
  - discriminate.
Qed.

(** Shape and cells of a weighted grid given in closed form. *)
Lemma weighted_grid_cells (m : list (list double)) (probabilities : list double)
    (rows cols : nat) :
  has_shape m rows cols -> (cols <= length probabilities)%nat ->
  has_shape ((fun row => zip_with Double.mul row probabilities) <$> m) rows cols /\
  forall i j x q,
    cell m i j = Some x -> probabilities !! j = Some q ->
    cell ((fun row => zip_with Double.mul row probabilities) <$> m) i j =
      Some (x * q)%double.
Proof.
  intros [Hrows Hcols] Hp. split.
  - split; [rewrite length_fmap; exact Hrows|].
    apply Forall_fmap. eapply Forall_impl; [exact Hcols|].
    intros row Hrow. simpl in *. rewrite length_zip_with. lia.
  - intros i j x q Hx Hq. unfold cell in *.
    rewrite list_lookup_fmap.
    destruct (m !! i) as [row|]; [simpl|discriminate].
    rewrite lookup_zip_with, Hx. simpl. rewrite Hq. reflexivity.
Qed.

(** C3 (amended). For every rectangular matrix with at least one row and
    every probability sequence whose length equals the matrix's column
    count, the weighting operation returns a grid of identical shape in
    which every cell[i][j] equals matrix[i][j] multiplied by
    probabilities[j]. *)
Theorem calculate_expected_values_cells (m : list (list double))
    (probabilities : list double) (rows cols : nat) :
  has_shape m rows cols ->
  (0 < rows)%nat ->
  length probabilities = cols ->
  exists g,
    calculate_expected_values m probabilities = Returns g /\
    has_shape g rows cols /\
    forall i j x q,
      cell m i j = Some x -> probabilities !! j = Some q ->
      cell g i j = Some (x * q)%double.
Proof.
  intros Hm Hpos Hp. eexists. split.
  - apply (calculate_expected_values_eq m probabilities rows cols); [done|done|lia].
  - apply weighted_grid_cells; [done|lia].
Qed.

Lemma calculate_expected_values_cells_witness :
  exists g,
    calculate_expected_values
      [[Double.of_int 2; Double.of_int 3]; [Double.of_int 5; Double.of_int 7]]
      [lit_0_25; lit_0_2] = Returns g /\
    has_shape g 2 2 /\
    forall i j x q,
      cell [[Double.of_int 2; Double.of_int 3]; [Double.of_int 5; Double.of_int 7]]
        i j = Some x ->
      [lit_0_25; lit_0_2] !! j = Some q ->
      cell g i j = Some (x * q)%double.
Proof.
  apply (calculate_expected_values_cells
           [[Double.of_int 2; Double.of_int 3]; [Double.of_int 5; Double.of_int 7]]
           [lit_0_25; lit_0_2] 2 2).
  - split; [reflexivity|]. repeat constructor.
  - lia.
  - reflexivity.
Defined.

(** C3 as stated fails on a grid without rows: the grid built from an empty
    orders sequence and the five default demands is rectangular with five
    columns, the default probabilities have length five, and the weighting
    reads row 0 of that grid instead of returning. *)
Lemma calculate_expected_values_empty_grid :
  create_profit_matrix [] default_demands = Returns [] /\
  has_shape [] 0 5 /\
  length default_probabilities = 5%nat /\
  calculate_expected_values [] default_probabilities = OutOfBounds /\
  ~ exists g, calculate_expected_values [] default_probabilities = Returns g.
Proof.
  split; [reflexivity|]. split; [split; [reflexivity|constructor]|].
  split; [reflexivity|]. split; [reflexivity|].
  intros [g Hg]. discriminate Hg.
Qed.

(** C7 (amended). The weighting operation checks no dimension and never
    reports DimensionMismatch (nor any other error kind). On a rectangular
    matrix and a probability sequence whose length differs from the column
    count: with at least one row and more probabilities than columns it
    returns the weighted grid, using the first probabilities only; with no
    row, or with fewer probabilities than columns, it reads out of bounds. *)
Theorem calculate_expected_values_unchecked (m : list (list double))
    (probabilities : list double) (rows cols : nat) :
  has_shape m rows cols ->
  length probabilities <> cols ->
  (forall k, calculate_expected_values m probabilities <> Fails k) /\
  ((0 < rows)%nat -> (cols < length probabilities)%nat ->
     exists g,
       calculate_expected_values m probabilities = Returns g /\
       has_shape g rows cols /\
       forall i j x q,
         cell m i j = Some x -> probabilities !! j = Some q ->
         cell g i j = Some (x * q)%double) /\
  (rows = 0%nat \/ (length probabilities < cols)%nat ->
     calculate_expected_values m probabilities = OutOfBounds).
Proof.
  intros Hm Hne. split; [|split].
  - intros k. apply calculate_expected_values_no_fail.
  - intros Hpos Hlt. eexists. split.
    + apply (calculate_expected_values_eq m probabilities rows cols); [done|done|lia].
    + apply weighted_grid_cells; [done|lia].
  - destruct Hm as [Hrows Hcols]. intros Hcase.
    destruct m as [|row0 rest]; [reflexivity|].
    destruct Hcase as [->|Hlt]; [discriminate Hrows|].
    apply calculate_expected_values_short.
    apply Forall_cons_1 in Hcols. destruct Hcols as [-> _]. exact Hlt.
Qed.

Lemma calculate_expected_values_unchecked_witness :
  (forall k,
     calculate_expected_values [[Double.of_int 2; Double.of_int 3]] [lit_0_25]
       <> Fails k) /\
  calculate_expected_values [[Double.of_int 2; Double.of_int 3]] [lit_0_25]
    = OutOfBounds.
Proof.
  destruct (calculate_expected_values_unchecked
              [[Double.of_int 2; Double.of_int 3]] [lit_0_25] 1 2)
    as (Hnf & _ & Hoob).
  - split; [reflexivity|]. repeat constructor.
  - simpl. lia.
  - split; [exact Hnf|]. apply Hoob. right. simpl. lia.
Defined.

(** C7 as stated fails: a one-column matrix weighted by two probabilities
    returns a grid instead of failing with DimensionMismatch. *)
Lemma calculate_expected_values_longer_probabilities :
  has_shape [[Double.of_int 1]] 1 1 /\
  length [lit_0_25; lit_0_2] <> 1%nat /\
  calculate_expected_values [[Double.of_int 1]] [lit_0_25; lit_0_2]
    = Returns [[lit_0_25]] /\
  calculate_expected_values [[Double.of_int 1]] [lit_0_25; lit_0_2]
    <> Fails DimensionMismatch.
Proof.
  split; [split; [reflexivity|repeat constructor]|].
  split; [simpl; lia|]. split; [reflexivity|discriminate].
Qed.

(** On a rectangular grid the accesses of [calculate_expected_values] stay
    in bounds exactly when there is a row and the probabilities cover the
    columns. *)
Lemma calculate_expected_values_in_bounds_iff (m : list (list double))
    (probabilities : list double) (rows cols : nat) :
  has_shape m rows cols ->
  in_bounds (calculate_expected_values m probabilities) <->
  (0 < rows)%nat /\ (cols <= length probabilities)%nat.
Proof.
  intros Hshape. unfold in_bounds. split.
  - intros Hin. destruct Hshape as [Hrows Hcols].
    destruct m as [|row0 rest]; [exfalso; apply Hin; reflexivity|].
    apply Forall_cons_1 in Hcols. destruct Hcols as [Hrow0 _].
    simpl in Hrows. split; [lia|].
    destruct (Nat.le_gt_cases cols (length probabilities)) as [Hle|Hgt];
      [exact Hle|].
    exfalso. apply Hin. apply calculate_expected_values_short. lia.
  - intros [Hpos Hle].
    rewrite (calculate_expected_values_eq m probabilities rows cols)
      by assumption.
    discriminate.
Qed.

(** C10. [calculate_expected_values] reads row 0 of its input and
    [probabilities[j]] for every column without a check: on the profit
    matrix built from any orders and demands, all its accesses are in bounds
    if and only if that matrix has a row 0 and the probability sequence is at
    least as long as that row; on the empty grid built from an empty orders
    sequence it reads row 0 out of bounds. *)
Theorem calculate_expected_values_in_bounds (orders demands : list Z)
    (probabilities : list double) :
  (exists profit_matrix,
     create_profit_matrix orders demands = Returns profit_matrix /\
     (in_bounds (calculate_expected_values profit_matrix probabilities) <->
      exists row0, profit_matrix !! 0%nat = Some row0 /\
                   (length row0 <= length probabilities)%nat)) /\
  create_profit_matrix [] demands = Returns [] /\
  calculate_expected_values [] probabilities = OutOfBounds.
Proof.
  split; [|split; reflexivity].
  pose proof (create_profit_matrix_eq orders demands) as Hpm.
  pose proof (profit_grid_shape orders demands) as Hshape.
  set (pm := (fun o => calculate_profit o <$> demands) <$> orders) in *.
  clearbody pm.
  exists pm. split; [exact Hpm|].
  rewrite (calculate_expected_values_in_bounds_iff pm probabilities
             (length orders) (length demands) Hshape).
  destruct Hshape as [Hrows Hcols]. rewrite Forall_forall in Hcols. split.
  - intros [Hpos Hle].
    destruct (lookup_lt_is_Some_2 pm 0 ltac:(lia)) as [row0 H0].
    exists row0. split; [exact H0|].
    rewrite (Hcols row0); [exact Hle|].
    eapply list_elem_of_lookup_2. exact H0.
  - intros (row0 & H0 & Hle). split.
    + rewrite <- Hrows. apply lookup_lt_Some in H0. exact H0.
    + rewrite <- (Hcols row0); [exact Hle|].
      eapply list_elem_of_lookup_2. exact H0.
Qed.

(** ** Row reduction *)

Lemma accumulate_app (row1 row2 : list double) (init : double) :
  accumulate (row1 ++ row2) init = accumulate row2 (accumulate row1 init).
Proof.
  revert init. induction row1 as [|x row1 IH]; intros init; simpl;
    [reflexivity | apply IH].
Qed.

Lemma accumulate_take (row : list double) (n : nat) :
  (n <= length row)%nat ->
  accumulate (take n row) Double.zero = sum_columns row n.
Proof.
  induction n as [|n IH]; intros Hn; simpl.
  - destruct row; reflexivity.
  - destruct (lookup_lt_is_Some_2 row n ltac:(lia)) as [x Hx].
    rewrite Hx, (take_S_r _ _ _ Hx), accumulate_app, IH by lia.
    reflexivity.
Qed.

Lemma accumulate_row_sum (row : list double) :
  accumulate row Double.zero = row_sum row.
Proof.
  unfold row_sum. rewrite <- accumulate_take by lia.
  rewrite take_ge by lia. reflexivity.
Qed.

Lemma calculate_expected_profits_eq (expected_values : list (list double)) :
  calculate_expected_profits expected_values =
    Returns ((fun row => accumulate row Double.zero) <$> expected_values).
Proof.
  unfold calculate_expected_profits, Vec.make.
  rewrite (transform_pure _ (fun row => accumulate row Double.zero)).
  - simpl. rewrite drop_ge, app_nil_r by (rewrite length_replicate; lia).
    reflexivity.
  - intros [] row. reflexivity.
  - rewrite length_replicate. lia.
Qed.

(** C4. For every weighted grid, row reduction returns one value per row,
    the sum of that row's columns accumulated from 0.0 in ascending index
    order; a row with zero columns sums to 0.0. *)
Theorem calculate_expected_profits_sums (weighted : list (list double)) :
  exists sums,
    calculate_expected_profits weighted = Returns sums /\
    length sums = length weighted /\
    (forall i row, weighted !! i = Some row -> sums !! i = Some (row_sum row)) /\
    (forall i, weighted !! i = Some [] -> sums !! i = Some Double.zero).
Proof.
  eexists. split; [apply calculate_expected_profits_eq|].
  split; [apply length_fmap|].
  assert (Hrow : forall i row, weighted !! i = Some row ->
            ((fun row => accumulate row Double.zero) <$> weighted) !! i
              = Some (row_sum row)).
  { intros i row Hi. rewrite list_lookup_fmap, Hi. simpl.
    rewrite accumulate_row_sum. reflexivity. }
  split; [exact Hrow|].
  intros i Hi. apply (Hrow i [] Hi).
Qed.

(** ** Comparison of doubles *)

Lemma gt_irrefl (x : double) : (x > x)%double = false.
Proof.
  unfold Double.gt, SFltb, SFcompare.
  destruct x as [[]|[]| |[] m e]; try reflexivity; compare_cases; reflexivity.
Qed.

Lemma gt_ge (a b : double) : (a > b)%double = true -> (a >= b)%double = true.
Proof.
  unfold Double.gt, Double.ge, SFltb, SFleb.
  destruct (SFcompare b a) as [[]|]; intros H; try discriminate H; reflexivity.
Qed.

(** [c >= b] and [b > a] give [c > a], NaN included: both premises exclude it. *)
Lemma ge_gt_trans (a b c : double) :
  (b > a)%double = true -> (c >= b)%double = true -> (c > a)%double = true.
Proof.
  unfold Double.gt, Double.ge, SFltb, SFleb, SFcompare.
  destruct a as [[]|[]| |[] ma ea], b as [[]|[]| |[] mb eb],
           c as [[]|[]| |[] mc ec];
    intros Hab Hbc; try discriminate Hab; try discriminate Hbc;
    try reflexivity; compare_cases; subst; try lia; try reflexivity.
Qed.

(** ** The selection loop *)

Lemma not_true_false (b : bool) : (b = true -> False) -> b = false.
Proof. destruct b; [intros H; destruct (H eq_refl) | reflexivity]. Qed.

Lemma optimal_order_loop_scanned (orders : list Z) (expected_profits : list double) :
  (length expected_profits <= length orders)%nat ->
  exists best,
    optimal_order_loop orders expected_profits = Returns best /\
    scanned orders expected_profits (length expected_profits) best.
Proof.
  intros Hlen. unfold optimal_order_loop.
  apply (for_loop_inv (scanned orders expected_profits) _
           (length expected_profits) 0 (0, Double.lowest)).
  - left. split; [reflexivity|]. intros i e Hi. lia.
  - intros j [o m] Hj HP.
    destruct (lookup_lt_is_Some_2 orders j ltac:(lia)) as [oj Hoj].
    destruct (lookup_lt_is_Some_2 expected_profits j ltac:(lia)) as [ej Hej].
    rewrite (at_lookup _ _ _ Hoj), (at_lookup _ _ _ Hej). simpl.
    destruct (ej > m)%double eqn:Hcmp.
    + (* the element replaces the incumbent *)
      eexists. split; [reflexivity|]. right. exists j. simpl.
      assert (Hseen : forall i e, (i < j)%nat -> expected_profits !! i = Some e ->
                (e >= ej)%double = false).
      { intros i e Hi He. apply not_true_false. intros Hge.
        pose proof (ge_gt_trans m ej e Hcmp Hge) as Hgt.
        destruct HP as [[[= -> ->] Hnone] | (k & _ & _ & _ & _ & Hmax & _)].
        - rewrite (Hnone i e Hi He) in Hgt. discriminate.
        - simpl in Hmax. rewrite (Hmax i e Hi He) in Hgt. discriminate. }
      split; [lia|]. split; [exact Hoj|]. split; [exact Hej|]. split; [|split].
      * destruct HP as [[[= -> ->] _] | (k & _ & _ & _ & Hlow & _ & _)];
          [exact Hcmp|].
        simpl in Hlow. apply (ge_gt_trans _ m); [exact Hlow|].
        apply gt_ge. exact Hcmp.
      * intros i e Hi He. destruct (decide (i = j)) as [->|Hne].
        -- rewrite Hej in He. injection He as <-. apply gt_irrefl.
        -- apply not_true_false. intros Hgt.
           apply gt_ge in Hgt. rewrite (Hseen i e ltac:(lia) He) in Hgt.
           discriminate.
      * exact Hseen.
    + (* the incumbent stays *)
      eexists. split; [reflexivity|].
      destruct HP as [[[= -> ->] Hnone] | (k & Hk & Hok & Hek & Hlow & Hmax & Hfirst)].
      * left. split; [reflexivity|]. intros i e Hi He.
        destruct (decide (i = j)) as [->|Hne].
        -- rewrite Hej in He. injection He as <-. exact Hcmp.
        -- apply (Hnone i e); [lia|exact He].
      * right. exists k. simpl in *.
        split; [lia|]. split; [exact Hok|]. split; [exact Hek|].
        split; [exact Hlow|]. split; [|exact Hfirst].
        intros i e Hi He. destruct (decide (i = j)) as [->|Hne].
        -- rewrite Hej in He. injection He as <-. exact Hcmp.
        -- apply (Hmax i e); [lia|exact He].
Qed.

(** C5 (amended). For every equal-length pair of orders and expected-profits
    sequences in which some expected profit is greater than the lowest
    finite double, the loop's initial best, the optimizer returns the order
    and the value at the first index attaining the maximum expected profit:
    no element is greater than the returned value and no earlier element is
    greater than or equal to it, so a later element equal to the current
    best never replaces the incumbent. For expected profits
    [10.0, 20.0, 20.0, 5.0] with orders [100, 150, 200, 250] it returns
    (150, 20.0). *)
Theorem optimal_order_loop_first_max (orders : list Z)
    (expected_profits : list double) :
  length orders = length expected_profits ->
  (exists i e, expected_profits !! i = Some e /\
               (e > Double.lowest)%double = true) ->
  (exists k o m,
     optimal_order_loop orders expected_profits = Returns (o, m) /\
     orders !! k = Some o /\ expected_profits !! k = Some m /\
     (forall i e, expected_profits !! i = Some e -> (e > m)%double = false) /\
     (forall i e, (i < k)%nat -> expected_profits !! i = Some e ->
        (e >= m)%double = false)) /\
  optimal_order_loop [100; 150; 200; 250] (Double.of_int <$> [10; 20; 20; 5])
    = Returns (150, Double.of_int 20).
Proof.
  intros Hlen (i0 & e0 & He0 & Hgt0). split; [|reflexivity].
  destruct (optimal_order_loop_scanned orders expected_profits ltac:(lia))
    as ([o m] & Hrun & HP).
  destruct HP as [[_ Hnone] | (k & Hk & Hok & Hek & _ & Hmax & Hfirst)].
  - rewrite (Hnone i0 e0 (lookup_lt_Some _ _ _ He0) He0) in Hgt0. discriminate.
  - exists k, o, m. simpl in *.
    split; [exact Hrun|]. split; [exact Hok|]. split; [exact Hek|].
    split; [|exact Hfirst].
    intros i e He. apply (Hmax i e); [|exact He].
    apply lookup_lt_Some in He. exact He.
Qed.

Lemma optimal_order_loop_first_max_witness :
  (exists k o m,
     optimal_order_loop [100; 150; 200] (Double.of_int <$> [7; 9; 9])
       = Returns (o, m) /\
     [100; 150; 200] !! k = Some o /\
     (Double.of_int <$> [7; 9; 9]) !! k = Some m /\
     (forall i e, (Double.of_int <$> [7; 9; 9]) !! i = Some e ->
        (e > m)%double = false) /\
     (forall i e, (i < k)%nat -> (Double.of_int <$> [7; 9; 9]) !! i = Some e ->
        (e >= m)%double = false)) /\
  optimal_order_loop [100; 150; 200; 250] (Double.of_int <$> [10; 20; 20; 5])
    = Returns (150, Double.of_int 20).
Proof.
  apply (optimal_order_loop_first_max
           [100; 150; 200] (Double.of_int <$> [7; 9; 9])).
  - reflexivity.
  - exists 0%nat, (Double.of_int 7). split; reflexivity.
Defined.

(** C5 as stated fails when no expected profit exceeds the initial best: for
    the single order 100 with expected profit [lowest], index 0 is the first
    (and only) one attaining the maximum, which gives (100, lowest); the
    comparison is strict, so the loop keeps its initial order 0. *)
Lemma optimal_order_loop_lowest_only :
  length [100] = length [Double.lowest] /\
  [100] !! 0%nat = Some 100 /\
  optimal_order_loop [100] [Double.lowest] = Returns (0, Double.lowest) /\
  optimal_order_loop [100] [Double.lowest] <> Returns (100, Double.lowest).
Proof.
  split; [reflexivity|]. split; [reflexivity|]. split; [reflexivity|].
  discriminate.
Qed.

Lemma for_loop_ext {St : Type} (body1 body2 : nat -> St -> outcome St) (n : nat) :
  forall (i : nat) (st : St),
    (forall j s, (i <= j < i + n)%nat -> body1 j s = body2 j s) ->
    for_loop n i body1 st = for_loop n i body2 st.
Proof.
  induction n as [|n IH]; intros i st Hext; simpl; [reflexivity|].
  rewrite <- (Hext i st) by lia.
  destruct (body1 i st) as [s1| |]; simpl; try reflexivity.
  apply IH. intros j s Hj. apply Hext. lia.
Qed.

Lemma optimal_order_loop_no_fail (orders : list Z)
    (expected_profits : list double) (k : error_kind) :
  optimal_order_loop orders expected_profits <> Fails k.
Proof.
  unfold optimal_order_loop. apply for_loop_no_fail. clear k.
  intros j [o m] k. unfold Vec.at_.
  destruct (orders !! j); simpl; [|discriminate].
  destruct (expected_profits !! j) as [e|]; simpl; [|discriminate].
  destruct (e > m)%double; discriminate.
Qed.

Lemma optimal_order_loop_prefix (orders : list Z) (expected_profits : list double) :
  optimal_order_loop orders expected_profits =
  optimal_order_loop (take (length expected_profits) orders) expected_profits.
Proof.
  unfold optimal_order_loop. apply for_loop_ext.
  intros j [o m] Hj. unfold Vec.at_.
  rewrite lookup_take_lt by lia. reflexivity.
Qed.

Lemma optimal_order_loop_short (orders : list Z) (expected_profits : list double) :
  (length orders < length expected_profits)%nat ->
  optimal_order_loop orders expected_profits = OutOfBounds.
Proof.
  intros Hlen. unfold optimal_order_loop.
  replace (length expected_profits)
    with (length orders + S (length expected_profits - S (length orders)))%nat
    by lia.
  rewrite for_loop_split.
  match goal with
  | |- bind (for_loop _ _ ?b ?st) _ = _ =>
      destruct (for_loop_inv (fun _ _ => True) b (length orders) 0 st I)
        as (best & -> & _)
  end.
  - intros j [o m] Hj _.
    destruct (lookup_lt_is_Some_2 orders j ltac:(lia)) as [oj Hoj].
    destruct (lookup_lt_is_Some_2 expected_profits j ltac:(lia)) as [ej Hej].
    rewrite (at_lookup _ _ _ Hoj), (at_lookup _ _ _ Hej). simpl.
    destruct (ej > m)%double; eexists; split; try reflexivity; exact I.
  - destruct best as [o m]. simpl.
    rewrite at_oob by lia. reflexivity.
Qed.

(** C8 (amended). The optimizer validates nothing and never reports
    EmptyInput or DimensionMismatch (nor any other error kind). With an
    empty expected-profits sequence it returns the initial pair (0, lowest
    finite double) whatever the orders; with at least as many orders as
    expected profits it returns, having scanned only the first
    len(expected_profits) orders; with fewer orders than expected profits
    it reads the orders out of bounds. *)
Theorem optimal_order_loop_unchecked (orders : list Z)
    (expected_profits : list double) :
  (forall k, optimal_order_loop orders expected_profits <> Fails k) /\
  (expected_profits = [] ->
     optimal_order_loop orders expected_profits = Returns (0, Double.lowest)) /\
  ((length expected_profits <= length orders)%nat ->
     (exists best, optimal_order_loop orders expected_profits = Returns best) /\
     optimal_order_loop orders expected_profits =
       optimal_order_loop (take (length expected_profits) orders) expected_profits) /\
  ((length orders < length expected_profits)%nat ->
     optimal_order_loop orders expected_profits = OutOfBounds).
Proof.
  split; [|split; [|split]].
  - intros k. apply optimal_order_loop_no_fail.
  - intros ->. reflexivity.
  - intros Hlen. split; [|apply optimal_order_loop_prefix].
    destruct (optimal_order_loop_scanned orders expected_profits Hlen)
      as (best & Hrun & _).
    exists best. exact Hrun.
  - apply optimal_order_loop_short.
Qed.

(** C8 as stated fails: with both sequences empty the loop returns its
    initial pair instead of failing with EmptyInput, and with two orders for
    one expected profit it returns instead of failing with
    DimensionMismatch. *)
Lemma optimal_order_loop_no_validation :
  optimal_order_loop [] [] = Returns (0, Double.lowest) /\
  optimal_order_loop [] [] <> Fails EmptyInput /\
  length [100; 150] <> length [Double.of_int 10] /\
  optimal_order_loop [100; 150] [Double.of_int 10]
    = Returns (100, Double.of_int 10) /\
  optimal_order_loop [100; 150] [Double.of_int 10] <> Fails DimensionMismatch.
Proof.
  split; [reflexivity|]. split; [discriminate|]. split; [simpl; lia|].
  split; [reflexivity|discriminate].
Qed.

(** ** The default run *)

(** The five probability literals are the correctly rounded quotients of
    the decimals they are written as. *)
Lemma probability_literals :
  default_probabilities =
    [Double.div (Double.of_int 1) (Double.of_int 10);
     Double.div (Double.of_int 15) (Double.of_int 100);
     Double.div (Double.of_int 25) (Double.of_int 100);
     Double.div (Double.of_int 3) (Double.of_int 10);
     Double.div (Double.of_int 2) (Double.of_int 10)].
Proof. vm_compute. reflexivity. Qed.

(** C6. On the default inputs the profit matrix cell for order 100 (row 0)
    and demand 100 (column 0) is 2,400,000 and the cell for order 300
    (row 4) and demand 100 is 400,000, as the specification's arithmetic
    gives them; the run carries these cells through the weighting (each is
    multiplied by the probability 0.1 of its column), the row sums and the
    selection, which ends on order 250 with expected profit 4,555,000. *)
Theorem main_default_run :
  exists r,
    main = Returns r /\
    default_orders !! 0%nat = Some 100 /\ default_orders !! 4%nat = Some 300 /\
    default_demands !! 0%nat = Some 100 /\
    default_probabilities !! 0%nat = Some lit_0_1 /\
    cell (run_profit_matrix r) 0 0 = Some (Double.of_int 2400000) /\
    cell (run_profit_matrix r) 4 0 = Some (Double.of_int 400000) /\
    Double.of_int 2400000 =
      (Double.of_int 49000 * Double.of_int 100 -
       Double.of_int 25000 * Double.of_int 100)%double /\
    Double.of_int 400000 =
      (Double.of_int 49000 * Double.of_int 100 +
       Double.of_int 15000 * Double.of_int 200 -
       Double.of_int 25000 * Double.of_int 300)%double /\
    cell (run_expected_values r) 0 0 = Some (Double.of_int 2400000 * lit_0_1)%double /\
    cell (run_expected_values r) 4 0 = Some (Double.of_int 400000 * lit_0_1)%double /\
    run_expected_values r =
      ((fun row => zip_with Double.mul row default_probabilities)
         <$> run_profit_matrix r) /\
    run_expected_profits r = (row_sum <$> run_expected_values r) /\
    run_expected_profits r =
      (Double.of_int <$> [2400000; 3430000; 4205000; 4555000; 4395000]) /\
    run_optimal r = (250, Double.of_int 4555000).
Proof.
  eexists. split; [vm_compute; reflexivity|].
  repeat split; vm_compute; reflexivity.
Qed.

(** * Further properties of the code *)

(** ** Order of doubles that hold integers, and the profit function *)

Lemma log2_digits_lt (a b : positive) :
  Zpos (digits2_pos a) < Zpos (digits2_pos b) -> Zpos a < Zpos b.
Proof.
  rewrite !digits2_log2. intros H. apply Z.log2_lt_cancel. lia.
Qed.

(** Two canonical forms of the same sign compare as their integers do. *)
Lemma canon_compare (s : bool) (va vb : positive) :
  Zpos va < 2 ^ 53 -> Zpos vb < 2 ^ 53 ->
  SFcompare (canon s va) (canon s vb) =
    Some (if s then Zpos vb ?= Zpos va else Zpos va ?= Zpos vb).
Proof.
  intros Ha Hb. unfold canon, SFcompare. f_equal.
  pose proof (digits2_bound va Ha) as Hda.
  pose proof (digits2_bound vb Hb) as Hdb.
  assert (Hm : Zpos (digits2_pos va) = Zpos (digits2_pos vb) ->
          Pos.compare_cont Eq (shift_left va (53 - Zpos (digits2_pos va)))
            (shift_left vb (53 - Zpos (digits2_pos vb))) = (Zpos va ?= Zpos vb)).
  { intros Hd. rewrite Hd.
    change (Pos.compare_cont Eq ?x ?y) with (Pos.compare x y).
    rewrite Pos2Z.inj_compare, !shift_left_spec by lia.
    assert (Hk : 0 < 2 ^ (53 - Zpos (digits2_pos vb)))
      by (apply Z.pow_pos_nonneg; lia).
    destruct (Z.compare_spec (Zpos va) (Zpos vb));
      [apply Z.compare_eq_iff|apply Z.compare_lt_iff|apply Z.compare_gt_iff];
      nia. }
  destruct (Z.compare_spec (Zpos (digits2_pos va) - 53) (Zpos (digits2_pos vb) - 53))
    as [He|He|He].
  - rewrite Hm by lia. destruct s; [|reflexivity].
    rewrite (Z.compare_antisym (Zpos va)). reflexivity.
  - assert (Hlt : Zpos va < Zpos vb) by (apply log2_digits_lt; lia).
    destruct s; symmetry; [apply Z.compare_gt_iff|apply Z.compare_lt_iff]; exact Hlt.
  - assert (Hlt : Zpos vb < Zpos va) by (apply log2_digits_lt; lia).
    destruct s; symmetry; [apply Z.compare_lt_iff|apply Z.compare_gt_iff]; exact Hlt.
Qed.

(** Integers below 2^53 in magnitude compare as doubles the way they compare
    as integers. *)
Lemma of_int_compare (a b : Z) :
  Z.abs a < 2 ^ 53 -> Z.abs b < 2 ^ 53 ->
  SFcompare (Double.of_int a) (Double.of_int b) = Some (a ?= b).
Proof.
  intros Ha Hb. destruct a as [|va|va], b as [|vb|vb];
    rewrite ?(of_int_pos va), ?(of_int_neg va), ?(of_int_pos vb), ?(of_int_neg vb)
      by assumption;
    try reflexivity.
  - rewrite canon_compare by assumption. reflexivity.
  - rewrite canon_compare by assumption. simpl.
    rewrite Pos.compare_antisym. reflexivity.
Qed.

Lemma of_int_ge (a b : Z) :
  Z.abs a < 2 ^ 53 -> Z.abs b < 2 ^ 53 ->
  (Double.of_int a >= Double.of_int b)%double = (b <=? a).
Proof.
  intros Ha Hb. unfold Double.ge, SFleb. rewrite of_int_compare by assumption.
  unfold Z.leb. destruct (b ?= a); reflexivity.
Qed.


(** A positive integer constant times any integer, as long as the product
    stays below 2^53 in magnitude. *)
Lemma of_int_mul_pos_l (a b : Z) :
  0 < a < 2 ^ 53 -> Z.abs b < 2 ^ 53 -> Z.abs (a * b) < 2 ^ 53 ->
  (Double.of_int a * Double.of_int b)%double = Double.of_int (a * b).
Proof.
  intros Ha Hb Hab. destruct a as [|va|va]; try lia.
  assert (Hva : Zpos va < 2 ^ 53) by lia.
  destruct b as [|vb|vb].
  - rewrite (of_int_pos va) by exact Hva. reflexivity.
  - apply of_int_mul; lia.
  - rewrite (of_int_pos va), (of_int_neg vb) by assumption.
    change (Zpos va * Zneg vb) with (Zneg (va * vb)) in *.
    rewrite mul_canon by exact Hab.
    rewrite (of_int_neg (va * vb)) by exact Hab. reflexivity.
Qed.

(** X1. [calculate_profit] rejects no argument: for every pair of [int]
    values, negative ones included, whose difference is representable, it
    returns the exact integer value of the profit formula. *)
Theorem calculate_profit_any_int (orders demand : Z) :
  Int.in_range orders -> Int.in_range demand ->
  Int.in_range (orders - demand) ->
  calculate_profit orders demand =
    Double.of_int (49000 * Z.min orders demand +
                   15000 * Z.max 0 (orders - demand) - 25000 * orders).
Proof.
  unfold Int.in_range, Int.min_int, Int.max_int. intros Ho Hd Hsub.
  unfold calculate_profit, Int.sub.
  rewrite std_min_spec, std_max_spec, wrap_in_range
    by (unfold Int.in_range, Int.min_int, Int.max_int; lia).
  assert (H53 : 2 ^ 53 = 9007199254740992) by reflexivity.
  assert (H31 : 2 ^ 31 = 2147483648) by reflexivity.
  unfold sale_price_first_half, sale_price_second_half, cost_per_unit.
  rewrite !of_int_mul_pos_l by lia.
  rewrite of_int_add by lia.
  rewrite of_int_sub by lia.
  reflexivity.
Qed.

Lemma calculate_profit_any_int_witness :
  calculate_profit 100 (-20) =
    Double.of_int (49000 * Z.min 100 (-20) +
                   15000 * Z.max 0 (100 - -20) - 25000 * 100).
Proof.
  apply (calculate_profit_any_int 100 (-20));
    unfold Int.in_range, Int.min_int, Int.max_int; lia.
Defined.

(** X2. The profit is piecewise linear: once the demand covers the order it
    is 24000 per unit ordered, whatever the demand; below that every unit of
    demand is worth 34000 and every unit ordered costs 10000. *)
Theorem calculate_profit_piecewise (order demand : Z) :
  0 <= order <= Int.max_int ->
  0 <= demand <= Int.max_int ->
  (order <= demand ->
     calculate_profit order demand = Double.of_int (24000 * order)) /\
  (demand <= order ->
     calculate_profit order demand =
       Double.of_int (34000 * demand - 10000 * order)).
Proof.
  intros Ho Hd.
  split; intros Hle; rewrite calculate_profit_exact by assumption; f_equal; lia.
Qed.

Lemma calculate_profit_piecewise_witness :
  (200 <= 150 ->
     calculate_profit 200 150 = Double.of_int (24000 * 200)) /\
  (150 <= 200 ->
     calculate_profit 200 150 = Double.of_int (34000 * 150 - 10000 * 200)).
Proof.
  apply (calculate_profit_piecewise 200 150); unfold Int.max_int; lia.
Defined.

(** X3. For a fixed order the profit never decreases when the demand grows. *)
Theorem calculate_profit_monotone (order demand demand' : Z) :
  0 <= order <= Int.max_int ->
  0 <= demand <= demand' ->
  demand' <= Int.max_int ->
  (calculate_profit order demand' >= calculate_profit order demand)%double = true.
Proof.
  intros Ho Hd Hd'. unfold Int.max_int in *.
  assert (H53 : 2 ^ 53 = 9007199254740992) by reflexivity.
  assert (H31 : 2 ^ 31 = 2147483648) by reflexivity.
  rewrite !calculate_profit_exact by (unfold Int.max_int; lia).
  rewrite of_int_ge by lia. apply Z.leb_le. lia.
Qed.

Lemma calculate_profit_monotone_witness :
  (calculate_profit 200 250 >= calculate_profit 200 150)%double = true.
Proof.
  apply (calculate_profit_monotone 200 150 250); unfold Int.max_int; lia.
Defined.

(** X4. The profit of an order lies between a loss of 10000 per unit and a
    gain of 24000 per unit; in particular it is a finite number. *)
Theorem calculate_profit_bounds (order demand : Z) :
  0 <= order <= Int.max_int ->
  0 <= demand <= Int.max_int ->
  (calculate_profit order demand >= Double.of_int (- 10000 * order))%double = true /\
  (Double.of_int (24000 * order) >= calculate_profit order demand)%double = true.
Proof.
  intros Ho Hd. unfold Int.max_int in *.
  assert (H53 : 2 ^ 53 = 9007199254740992) by reflexivity.
  assert (H31 : 2 ^ 31 = 2147483648) by reflexivity.
  rewrite !calculate_profit_exact by (unfold Int.max_int; lia).
  rewrite !of_int_ge by lia. split; apply Z.leb_le; lia.
Qed.

Lemma calculate_profit_bounds_witness :
  (calculate_profit 200 150 >= Double.of_int (- 10000 * 200))%double = true /\
  (Double.of_int (24000 * 200) >= calculate_profit 200 150)%double = true.
Proof.
  apply (calculate_profit_bounds 200 150); unfold Int.max_int; lia.
Defined.

(** ** Weighting of arbitrary grids *)

Section Ragged.

Variable probabilities : list double.

Let weigh (j : nat) (profit : double) : outcome (double * nat) :=
  p <- Vec.at_ probabilities j ;; Returns ((profit * p)%double, S j).

(** A row longer than the destination makes the output iterator run past
    its end, unless a read of [probabilities] fails first. *)
Lemma transform_weight_overflow (src : list double) :
  forall (dst : list double) (k j : nat),
    (k <= length dst < k + length src)%nat ->
    transform weigh src dst k j = OutOfBounds.
Proof.
  induction src as [|x src IH]; intros dst k j Hk; simpl in *; [lia|].
  unfold weigh at 1, Vec.at_.
  destruct (probabilities !! j) as [p|]; simpl; [|reflexivity].
  unfold Vec.set. case_decide; simpl; [|reflexivity].
  apply IH. rewrite length_insert. lia.
Qed.

Lemma transform_weight_row (width : nat) (row : list double) :
  transform weigh row (replicate width Double.zero) 0 0%nat =
    if row_fits width probabilities row
    then Returns (weighted_row width probabilities row)
    else OutOfBounds.
Proof.
  unfold row_fits.
  destruct (Nat.leb_spec (length row) width) as [Hw|Hw]; simpl.
  - destruct (Nat.leb_spec (length row) (length probabilities)) as [Hp|Hp].
    + unfold weigh. rewrite transform_weight by (rewrite ?length_replicate; lia).
      simpl. rewrite drop_0, drop_replicate. reflexivity.
    + apply transform_weight_oob. lia.
  - apply transform_weight_overflow. rewrite length_replicate. lia.
Qed.

End Ragged.

Lemma calculate_expected_values_rows (probabilities : list double)
    (width : nat) (m rest : list (list double)) :
  forall (done : list (list double)) (pre : list (list double)),
    m = pre ++ rest -> length done = length pre ->
    for_loop (length rest) (length pre)
      (fun i expected_values =>
         src <- Vec.at_ m i ;;
         dst <- Vec.at_ expected_values i ;;
         dst' <- transform
                   (fun (j : nat) profit =>
                      p <- Vec.at_ probabilities j ;;
                      Returns ((profit * p)%double, S j))
                   src dst 0 0%nat ;;
         Vec.set expected_values i dst')
      (done ++ replicate (length rest) (replicate width Double.zero)) =
    if forallb (row_fits width probabilities) rest
    then Returns (done ++ (weighted_row width probabilities <$> rest))
    else OutOfBounds.
Proof.
  induction rest as [|row rest IH]; intros done pre Hm Hlen.
  - simpl. rewrite app_nil_r. reflexivity.
  - cbn [length for_loop forallb replicate].
    assert (Hrow : m !! length pre = Some row)
      by (rewrite Hm, lookup_app_r, Nat.sub_diag by lia; reflexivity).
    rewrite (at_lookup _ _ _ Hrow). cbn [bind].
    rewrite (at_lookup _ _ (replicate width Double.zero)).
    2:{ rewrite lookup_app_r by lia. rewrite Hlen, Nat.sub_diag. reflexivity. }
    cbn [bind]. rewrite transform_weight_row.
    destruct (row_fits width probabilities row); cbn [bind andb]; [|reflexivity].
    rewrite set_lt by (rewrite length_app; simpl; lia). cbn [bind].
    rewrite insert_app_r_alt by lia. rewrite Hlen, Nat.sub_diag. cbn [insert list_insert].
    specialize (IH (done ++ [weighted_row width probabilities row]) (pre ++ [row])).
    rewrite !length_app in IH. simpl in IH.
    replace (length pre + 1)%nat with (S (length pre)) in IH by lia.
    rewrite <- !app_assoc in IH. simpl in IH.
    rewrite fmap_cons. apply IH; [exact Hm | lia].
Qed.

(** X5. On any grid, ragged ones included, [calculate_expected_values]
    returns exactly when there is a row 0 and no row is longer than row 0 or
    than the probabilities, and reads or writes out of bounds otherwise.
    When it returns, every row of the result has the length of row 0: the
    weighted cells of the input row, then the zeros it started with. *)
Theorem calculate_expected_values_ragged (m : list (list double))
    (probabilities : list double) :
  calculate_expected_values m probabilities =
    match m with
    | [] => OutOfBounds
    | row0 :: _ =>
        if forallb (row_fits (length row0) probabilities) m
        then Returns (weighted_row (length row0) probabilities <$> m)
        else OutOfBounds
    end.
Proof.
  destruct m as [|row0 rest]; [reflexivity|].
  unfold calculate_expected_values. cbn [Vec.at_ lookup list_lookup bind].
  apply (calculate_expected_values_rows probabilities (length row0)
           (row0 :: rest) (row0 :: rest) [] []); reflexivity.
Qed.

(** ** Weighting followed by row reduction *)

Lemma accumulate_zip_with (row probabilities : list double) :
  forall init,
    accumulate (zip_with Double.mul row probabilities) init =
    fold_left (fun acc xq => (acc + xq.1 * xq.2)%double)
      (zip row probabilities) init.
Proof.
  revert probabilities.
  induction row as [|x row IH]; intros [|q probabilities] init;
    try reflexivity.
  simpl. apply IH.
Qed.

(** X6. Weighting followed by row reduction gives, for every row of a
    rectangular grid with at least one row and enough probabilities, the sum
    of matrix[i][j] * probabilities[j] taken from 0.0 in ascending j. *)
Theorem expected_profits_weighted_sums (m : list (list double))
    (probabilities : list double) (rows cols : nat) :
  has_shape m rows cols -> (0 < rows)%nat -> (cols <= length probabilities)%nat ->
  (expected_values <- calculate_expected_values m probabilities ;;
   calculate_expected_profits expected_values) =
  Returns (weighted_sum probabilities <$> m).
Proof.
  intros Hshape Hpos Hcols.
  rewrite (calculate_expected_values_eq m probabilities rows cols) by assumption.
  cbn [bind]. rewrite calculate_expected_profits_eq.
  f_equal. rewrite <- list_fmap_compose. apply list_fmap_ext.
  intros i row _. simpl. apply accumulate_zip_with.
Qed.

Lemma expected_profits_weighted_sums_witness :
  (expected_values <- calculate_expected_values
                        [[Double.of_int 2; Double.of_int 3]]
                        [lit_0_25; lit_0_2] ;;
   calculate_expected_profits expected_values) =
  Returns (weighted_sum [lit_0_25; lit_0_2]
             <$> [[Double.of_int 2; Double.of_int 3]]).
Proof.
  apply (expected_profits_weighted_sums
           [[Double.of_int 2; Double.of_int 3]] [lit_0_25; lit_0_2] 1 2).
  - split; [reflexivity|]. repeat constructor.
  - lia.
  - simpl. lia.
Defined.

(** ** The selection loop as a fold *)

(** X7. With at least as many orders as expected profits the loop returns
    a pair (o, m) in which m is not NaN, m is at least the lowest finite
    double and no expected profit is greater than m. Either no expected
    profit exceeds the lowest finite double and the pair is the initial
    (0, lowest), or m exceeds it and (o, m) sits at an index of the two
    vectors before which no expected profit is greater than or equal to m. *)
Theorem optimal_order_loop_result (orders : list Z)
    (expected_profits : list double) :
  (length expected_profits <= length orders)%nat ->
  exists o m,
    optimal_order_loop orders expected_profits = Returns (o, m) /\
    m <> S754_nan /\
    (m >= Double.lowest)%double = true /\
    (forall i e, expected_profits !! i = Some e -> (e > m)%double = false) /\
    (((o, m) = (0, Double.lowest) /\
      forall i e, expected_profits !! i = Some e ->
        (e > Double.lowest)%double = false) \/
     ((m > Double.lowest)%double = true /\
      exists k, orders !! k = Some o /\ expected_profits !! k = Some m /\
        forall i e, (i < k)%nat -> expected_profits !! i = Some e ->
          (e >= m)%double = false)).
Proof.
  intros Hlen.
  destruct (optimal_order_loop_scanned orders expected_profits Hlen)
    as ([o m] & Hrun & HP).
  exists o, m. split; [exact Hrun|].
  destruct HP as [[[= -> ->] Hnone] | (k & Hk & Hok & Hek & Hlow & Hmax & Hfirst)].
  - split; [discriminate|]. split; [reflexivity|].
    assert (Hall : forall i e, expected_profits !! i = Some e ->
              (e > Double.lowest)%double = false).
    { intros i e He. apply (Hnone i e); [|exact He].
      apply lookup_lt_Some in He. exact He. }
    split; [exact Hall|]. left. split; [reflexivity|exact Hall].
  - simpl in *. split; [intros ->; discriminate Hlow|].
    split; [apply gt_ge; exact Hlow|]. split.
    + intros i e He. apply (Hmax i e); [|exact He].
      apply lookup_lt_Some in He. exact He.
    + right. split; [exact Hlow|]. exists k. auto.
Qed.

Lemma optimal_order_loop_result_witness :
  exists o m,
    optimal_order_loop [100; 150] [Double.of_int 7; Double.of_int 9]
      = Returns (o, m) /\
    m <> S754_nan /\
    (m >= Double.lowest)%double = true /\
    (forall i e, [Double.of_int 7; Double.of_int 9] !! i = Some e ->
       (e > m)%double = false) /\
    (((o, m) = (0, Double.lowest) /\
      forall i e, [Double.of_int 7; Double.of_int 9] !! i = Some e ->
        (e > Double.lowest)%double = false) \/
     ((m > Double.lowest)%double = true /\
      exists k, [100; 150] !! k = Some o /\
        [Double.of_int 7; Double.of_int 9] !! k = Some m /\
        forall i e, (i < k)%nat ->
          [Double.of_int 7; Double.of_int 9] !! i = Some e ->
          (e >= m)%double = false)).
Proof.
  apply (optimal_order_loop_result [100; 150] [Double.of_int 7; Double.of_int 9]).
  simpl. lia.
Defined.

(** The loop over indices is the left fold of [select] over the paired
    vectors. *)
Lemma optimal_order_loop_fold_from (orders : list Z) (expected_profits : list double) :
  forall (n i : nat) (best : Z * double),
    (i + n)%nat = length expected_profits ->
    (length expected_profits <= length orders)%nat ->
    for_loop n i
      (fun i best =>
         let '(optimal_order, max_profit) := best in
         o <- Vec.at_ orders i ;;
         e <- Vec.at_ expected_profits i ;;
         if (e > max_profit)%double then Returns (o, e)
         else Returns (optimal_order, max_profit))
      best =
    Returns (fold_left select (drop i (zip orders expected_profits)) best).
Proof.
  induction n as [|n IH]; intros i [o m] Hi Hlen.
  - simpl. rewrite drop_ge; [reflexivity|].
    rewrite length_zip_with. lia.
  - cbn [for_loop].
    destruct (lookup_lt_is_Some_2 orders i ltac:(lia)) as [oi Hoi].
    destruct (lookup_lt_is_Some_2 expected_profits i ltac:(lia)) as [ei Hei].
    rewrite (at_lookup _ _ _ Hoi), (at_lookup _ _ _ Hei). cbn [bind].
    rewrite (drop_S _ (oi, ei)).
    2:{ apply lookup_zip_with_Some. eauto. }
    cbn [fold_left]. unfold select at 2. cbn [fst snd].
    destruct (ei > m)%double; cbn [bind]; apply IH; lia.
Qed.

Lemma optimal_order_loop_fold (orders : list Z) (expected_profits : list double) :
  (length expected_profits <= length orders)%nat ->
  optimal_order_loop orders expected_profits =
    Returns (fold_left select (zip orders expected_profits) (0, Double.lowest)).
Proof.
  intros Hlen. unfold optimal_order_loop.
  rewrite (optimal_order_loop_fold_from orders expected_profits) by lia.
  reflexivity.
Qed.

Lemma select_nan (best : Z * double) (o : Z) : select best (o, S754_nan) = best.
Proof.
  unfold select, Double.gt, SFltb. simpl.
  destruct best.2; reflexivity.
Qed.

Lemma fold_select_filter (candidates : list (Z * double)) :
  forall best,
    fold_left select (filter (fun c => not_nan c = true) candidates) best =
    fold_left select candidates best.
Proof.
  induction candidates as [|[o e] cs IH]; intros best; [reflexivity|].
  rewrite filter_cons.
  destruct (decide (not_nan (o, e) = true)) as [Hn|Hn]; cbn [fold_left].
  - apply IH.
  - assert (e = S754_nan) as ->
      by (destruct e; try reflexivity; exfalso; apply Hn; reflexivity).
    rewrite select_nan. apply IH.
Qed.

(** X8. NaN expected profits are never selected and do not disturb the
    selection: dropping every (order, expected profit) pair whose expected
    profit is NaN leaves the result of the loop unchanged. *)
Theorem optimal_order_loop_skips_nan (orders : list Z)
    (expected_profits : list double) :
  length orders = length expected_profits ->
  optimal_order_loop
    ((filter (fun c => not_nan c = true) (zip orders expected_profits)).*1)
    ((filter (fun c => not_nan c = true) (zip orders expected_profits)).*2) =
  optimal_order_loop orders expected_profits.
Proof.
  intros Hlen.
  rewrite !optimal_order_loop_fold by (rewrite ?length_fmap; lia).
  rewrite zip_fst_snd. rewrite fold_select_filter. reflexivity.
Qed.

Lemma optimal_order_loop_skips_nan_witness :
  optimal_order_loop
    ((filter (fun c => not_nan c = true)
        (zip [100; 150] [S754_nan; Double.of_int 3])).*1)
    ((filter (fun c => not_nan c = true)
        (zip [100; 150] [S754_nan; Double.of_int 3])).*2) =
  optimal_order_loop [100; 150] [S754_nan; Double.of_int 3].
Proof.
  apply (optimal_order_loop_skips_nan [100; 150] [S754_nan; Double.of_int 3]).
  reflexivity.
Defined.

(** ** The whole computation *)

Lemma pipeline_returns (demands : list Z) (probabilities : list double)
    (orders : list Z) :
  orders <> [] -> (length demands <= length probabilities)%nat ->
  pipeline demands probabilities orders =
    Returns (run_of demands probabilities orders).
Proof.
  intros Hne Hlen. unfold pipeline.
  rewrite create_profit_matrix_eq. cbn [bind].
  pose proof (profit_grid_shape orders demands) as Hshape.
  assert (Hpos : (0 < length orders)%nat) by (destruct orders; simpl; [congruence|lia]).
  rewrite (calculate_expected_values_eq _ probabilities _ _ Hshape Hpos Hlen).
  cbn [bind]. rewrite calculate_expected_profits_eq. cbn [bind].
  rewrite optimal_order_loop_fold by (rewrite !length_fmap; lia).
  cbn [bind]. unfold run_of. f_equal. f_equal.
  - rewrite <- !list_fmap_compose. apply list_fmap_ext.
    intros i o _. simpl. apply accumulate_zip_with.
  - f_equal. f_equal.
    rewrite <- !list_fmap_compose. apply list_fmap_ext.
    intros i o _. simpl. apply accumulate_zip_with.
Qed.

Lemma pipeline_out_of_bounds (demands : list Z) (probabilities : list double)
    (orders : list Z) :
  ~ (orders <> [] /\ (length demands <= length probabilities)%nat) ->
  pipeline demands probabilities orders = OutOfBounds.
Proof.
  intros Hnot. destruct orders as [|o orders]; [reflexivity|].
  assert (Hgt : (length probabilities < length demands)%nat).
  { destruct (Nat.le_gt_cases (length demands) (length probabilities))
      as [Hle|Hgt]; [|exact Hgt].
    exfalso. apply Hnot. split; [discriminate|exact Hle]. }
  unfold pipeline. rewrite create_profit_matrix_eq. cbn [bind fmap list_fmap].
  rewrite calculate_expected_values_short by (rewrite length_fmap; exact Hgt).
  reflexivity.
Qed.

(** X9. The computation of [main] on given vectors returns exactly when
    there is at least one order and at least as many probabilities as
    demands, and reads out of bounds otherwise. When it returns, the tables
    are the grid of profits, its cells weighted by the probabilities, the
    weighted sum of every row, and the selection folded over the orders
    paired with those sums. *)
Theorem pipeline_total (demands : list Z) (probabilities : list double)
    (orders : list Z) :
  pipeline demands probabilities orders =
    if decide (orders <> [] /\ (length demands <= length probabilities)%nat)
    then Returns (run_of demands probabilities orders)
    else OutOfBounds.
Proof.
  case_decide as Hcond.
  - destruct Hcond as [Hne Hlen]. apply pipeline_returns; assumption.
  - apply pipeline_out_of_bounds. exact Hcond.
Qed.












Lemma fold_select_zeros (o0 : Z) (orders : list Z) (n : nat) :
  fold_left select (zip orders (replicate n Double.zero)) (o0, Double.zero)
    = (o0, Double.zero).
Proof.
  revert n. induction orders as [|o orders IH]; intros [|n]; try reflexivity.
  cbn [replicate zip_with fold_left]. apply IH.
Qed.

(** X11. With no demand scenario and at least one order the run returns:
    every row of the profit matrix is empty, every expected profit is 0.0
    and the first order is selected with expected profit 0.0. *)
Theorem pipeline_no_demands (probabilities : list double) (o0 : Z)
    (orders : list Z) :
  exists r,
    pipeline [] probabilities (o0 :: orders) = Returns r /\
    run_profit_matrix r = replicate (S (length orders)) [] /\
    run_expected_profits r = replicate (S (length orders)) Double.zero /\
    run_optimal r = (o0, Double.zero).
Proof.
  eexists. split; [apply pipeline_returns; [discriminate|simpl; lia]|].
  unfold run_of. cbn [run_profit_matrix run_expected_profits run_optimal].
  assert (Hpm : (fun o : Z => calculate_profit o <$> []) <$> (o0 :: orders)
                = replicate (S (length orders)) []).
  { change (S (length orders)) with (length (o0 :: orders)).
    generalize (o0 :: orders). intros l.
    induction l as [|x l IH]; [reflexivity|]. simpl. f_equal. exact IH. }
  rewrite Hpm. split; [reflexivity|].
  rewrite fmap_replicate.
  change (weighted_sum probabilities []) with Double.zero.
  split; [reflexivity|].
  cbn [replicate zip_with fold_left]. unfold select at 2. cbn [fst snd].
  change (Double.zero > Double.lowest)%double with true. cbn iota.
  apply fold_select_zeros.
Qed.

(** ** Printing *)

Section PrintingProperties.

Variable format_fixed2 : double -> string.

Lemma print_cells_eq {A : Type} (cell_text : A -> string) (xs : list A) :
  forall out, print_cells cell_text xs out = out ++ (cell_text <$> xs).
Proof.
  unfold print_cells. induction xs as [|x xs IH]; intros out; simpl.
  - rewrite app_nil_r. reflexivity.
  - rewrite IH, <- app_assoc. reflexivity.
Qed.

Lemma print_table_rows (orders : list Z) (matrix : list (list double)) :
  forall (n i : nat) (out : list string),
    (i + n)%nat = length matrix ->
    (length matrix <= length orders)%nat ->
    for_loop n i
      (fun i out =>
         o <- Vec.at_ orders i ;;
         let out := out ++ [align_left 12 (String.append "Order " (format_int o))] in
         row <- Vec.at_ matrix i ;;
         let out :=
           print_cells (fun value => align_right 11 (format_fixed2 value)) row out in
         Returns (out ++ [newline]))
      out =
    Returns
      (out ++ concat (zip_with
         (fun o row =>
            [align_left 12 (String.append "Order " (format_int o))] ++
            ((fun value => align_right 11 (format_fixed2 value)) <$> row) ++
            [newline])
         (drop i orders) (drop i matrix))).
Proof.
  induction n as [|n IH]; intros i out Hi Hlen.
  - cbn [for_loop]. rewrite (drop_ge matrix) by lia.
    rewrite zip_with_nil_r. simpl. rewrite app_nil_r. reflexivity.
  - cbn [for_loop].
    destruct (lookup_lt_is_Some_2 orders i ltac:(lia)) as [o Ho].
    destruct (lookup_lt_is_Some_2 matrix i ltac:(lia)) as [row Hrow].
    rewrite (at_lookup _ _ _ Ho). cbn [bind].
    rewrite (at_lookup _ _ _ Hrow). cbn [bind].
    rewrite print_cells_eq, IH by lia.
    rewrite (drop_S _ _ _ Ho), (drop_S _ _ _ Hrow).
    cbn [zip_with concat]. rewrite <- !app_assoc. reflexivity.
Qed.

Lemma print_table_rows_oob (orders : list Z) (matrix : list (list double)) :
  forall (n i : nat) (out : list string),
    (i + n)%nat = length matrix ->
    (i <= length orders < length matrix)%nat ->
    for_loop n i
      (fun i out =>
         o <- Vec.at_ orders i ;;
         let out := out ++ [align_left 12 (String.append "Order " (format_int o))] in
         row <- Vec.at_ matrix i ;;
         let out :=
           print_cells (fun value => align_right 11 (format_fixed2 value)) row out in
         Returns (out ++ [newline]))
      out = OutOfBounds.
Proof.
  induction n as [|n IH]; intros i out Hi Hlen; [lia|].
  cbn [for_loop]. unfold Vec.at_ at 1.
  destruct (orders !! i) as [o|] eqn:Ho; cbn [bind]; [|reflexivity].
  apply lookup_lt_Some in Ho.
  destruct (lookup_lt_is_Some_2 matrix i ltac:(lia)) as [row Hrow].
  rewrite (at_lookup _ _ _ Hrow). cbn [bind].
  apply IH; lia.
Qed.

Lemma print_table_eq (orders demands : list Z)
    (matrix : list (list double)) (title : string) (out : list string) :
  (length matrix <= length orders)%nat ->
  print_table format_fixed2 orders demands matrix title out =
    Returns (out ++ table_text format_fixed2 orders demands matrix title).
Proof.
  intros Hlen. unfold print_table.
  rewrite print_cells_eq, print_table_rows by lia.
  unfold table_text. rewrite !drop_0, <- !app_assoc. reflexivity.
Qed.


Lemma print_table_out_of_bounds (orders demands : list Z)
    (matrix : list (list double)) (title : string) (out : list string) :
  (length orders < length matrix)%nat ->
  print_table format_fixed2 orders demands matrix title out = OutOfBounds.
Proof.
  intros Hgt. unfold print_table. apply print_table_rows_oob; lia.
Qed.

(** X12. [print_table] reads [orders[i]] for every row of the matrix and
    only iterates over the demands and over the rows: with at least as many
    orders as rows it appends to the output the title line, the header line
    with one right-aligned cell per demand and, for every row, a line made
    of the label of its order and one right-aligned cell per value; with
    fewer orders it reads out of bounds. *)
Theorem print_table_total (orders demands : list Z)
    (matrix : list (list double)) (title : string) (out : list string) :
  print_table format_fixed2 orders demands matrix title out =
    if decide (length matrix <= length orders)%nat
    then Returns (out ++ table_text format_fixed2 orders demands matrix title)
    else OutOfBounds.
Proof.
  case_decide as Hlen.
  - apply print_table_eq. exact Hlen.
  - apply print_table_out_of_bounds. lia.
Qed.

Lemma report_loop_from (orders : list Z) (expected_profits : list double) :
  forall (n i : nat) (best : Z * double) (out : list string),
    (i + n)%nat = length expected_profits ->
    (length expected_profits <= length orders)%nat ->
    for_loop n i
      (fun i st =>
         let '(optimal_order, max_profit, out) := st in
         o <- Vec.at_ orders i ;;
         e <- Vec.at_ expected_profits i ;;
         let out :=
           out ++ [String.append "For Order "
                    (String.append (format_int o)
                    (String.append ": Expected Profit = "
                    (String.append (format_fixed2 e)
                    (String.append " dollars" newline))))] in
         if (e > max_profit)%double then Returns (o, e, out)
         else Returns (optimal_order, max_profit, out))
      (best, out) =
    Returns (fold_left select (drop i (zip orders expected_profits)) best,
             out ++ (profit_line format_fixed2 <$> drop i (zip orders expected_profits))).
Proof.
  induction n as [|n IH]; intros i [o m] out Hi Hlen.
  - cbn [for_loop]. rewrite drop_ge by (rewrite length_zip_with; lia).
    simpl. rewrite app_nil_r. reflexivity.
  - cbn [for_loop].
    destruct (lookup_lt_is_Some_2 orders i ltac:(lia)) as [oi Hoi].
    destruct (lookup_lt_is_Some_2 expected_profits i ltac:(lia)) as [ei Hei].
    rewrite (at_lookup _ _ _ Hoi), (at_lookup _ _ _ Hei). cbn [bind].
    rewrite (drop_S _ (oi, ei)) by (apply lookup_zip_with_Some; eauto).
    cbn [fold_left fmap list_fmap]. unfold select at 2. cbn [fst snd].
    destruct (ei > m)%double; cbn [bind]; rewrite IH by lia;
      rewrite <- app_assoc; reflexivity.
Qed.

Lemma report_loop_oob (orders : list Z) (expected_profits : list double) :
  forall (n i : nat) (st : Z * double * list string),
    (i + n)%nat = length expected_profits ->
    (i <= length orders < length expected_profits)%nat ->
    for_loop n i
      (fun i st =>
         let '(optimal_order, max_profit, out) := st in
         o <- Vec.at_ orders i ;;
         e <- Vec.at_ expected_profits i ;;
         let out :=
           out ++ [String.append "For Order "
                    (String.append (format_int o)
                    (String.append ": Expected Profit = "
                    (String.append (format_fixed2 e)
                    (String.append " dollars" newline))))] in
         if (e > max_profit)%double then Returns (o, e, out)
         else Returns (optimal_order, max_profit, out))
      st = OutOfBounds.
Proof.
  induction n as [|n IH]; intros i [[o m] out] Hi Hlen; [lia|].
  cbn [for_loop]. unfold Vec.at_ at 1.
  destruct (orders !! i) as [oi|] eqn:Ho; cbn [bind]; [|reflexivity].
  apply lookup_lt_Some in Ho.
  destruct (lookup_lt_is_Some_2 expected_profits i ltac:(lia)) as [ei Hei].
  rewrite (at_lookup _ _ _ Hei). cbn [bind].
  destruct (ei > m)%double; cbn [bind]; apply IH; lia.
Qed.

(** X13. The loop of [main] with its printing selects what the loop without
    it selects and fails when it fails; when there are enough orders it
    appends one line per pair of order and expected profit. *)
Theorem report_loop_selection (orders : list Z) (expected_profits : list double)
    (out : list string) :
  (st <- report_loop format_fixed2 orders expected_profits out ;; Returns st.1) =
    optimal_order_loop orders expected_profits /\
  ((length expected_profits <= length orders)%nat ->
   exists best,
     report_loop format_fixed2 orders expected_profits out =
       Returns (best, out ++ (profit_line format_fixed2 <$> zip orders expected_profits))).
Proof.
  destruct (Nat.le_gt_cases (length expected_profits) (length orders)) as [Hle|Hgt].
  - assert (Hrun : report_loop format_fixed2 orders expected_profits out =
        Returns (fold_left select (zip orders expected_profits) (0, Double.lowest),
                 out ++ (profit_line format_fixed2 <$> zip orders expected_profits))).
    { unfold report_loop.
      rewrite (report_loop_from orders expected_profits) by lia.
      rewrite drop_0. reflexivity. }
    split.
    + rewrite Hrun, optimal_order_loop_fold by exact Hle. reflexivity.
    + intros _. eexists. exact Hrun.
  - split; [|lia].
    rewrite optimal_order_loop_short by exact Hgt.
    unfold report_loop. rewrite report_loop_oob by lia. reflexivity.
Qed.

Lemma main_report_eq (demands : list Z) (probabilities : list double)
    (orders : list Z) (out : list string) :
  orders <> [] -> (length demands <= length probabilities)%nat ->
  main_report format_fixed2 demands probabilities orders out =
    Returns (out ++ report_text format_fixed2 demands probabilities orders).
Proof.
  intros Hne Hlen. unfold main_report.
  rewrite create_profit_matrix_eq. cbn [bind].
  pose proof (profit_grid_shape orders demands) as Hshape.
  assert (Hpos : (0 < length orders)%nat)
    by (destruct orders; simpl; [congruence|lia]).
  rewrite print_table_eq by (rewrite length_fmap; lia). cbn [bind].
  rewrite (calculate_expected_values_eq _ probabilities _ _ Hshape Hpos Hlen).
  cbn [bind].
  rewrite print_table_eq by (rewrite !length_fmap; lia). cbn [bind].
  rewrite calculate_expected_profits_eq. cbn [bind].
  unfold report_loop.
  rewrite (report_loop_from orders) by (rewrite ?length_fmap; lia).
  cbn [bind]. rewrite drop_0.
  assert (Hep : (fun row => accumulate row Double.zero) <$>
                  ((fun row => zip_with Double.mul row probabilities) <$>
                     ((fun o => calculate_profit o <$> demands) <$> orders)) =
                run_expected_profits (run_of demands probabilities orders)).
  { unfold run_of. cbn [run_expected_profits].
    rewrite <- !list_fmap_compose. apply list_fmap_ext.
    intros i o _. simpl. apply accumulate_zip_with. }
  rewrite Hep. unfold report_text, summary_line.
  change (run_optimal (run_of demands probabilities orders))
    with (fold_left select
            (zip orders (run_expected_profits (run_of demands probabilities orders)))
            (0, Double.lowest)).
  destruct (fold_left select _ _) as [o m].
  rewrite <- !app_assoc. reflexivity.
Qed.


Lemma main_report_out_of_bounds (demands : list Z) (probabilities : list double)
    (orders : list Z) (out : list string) :
  ~ (orders <> [] /\ (length demands <= length probabilities)%nat) ->
  main_report format_fixed2 demands probabilities orders out = OutOfBounds.
Proof.
  intros Hnot. destruct orders as [|o orders]; [reflexivity|].
  assert (Hgt : (length probabilities < length demands)%nat).
  { destruct (Nat.le_gt_cases (length demands) (length probabilities))
      as [Hle|Hgt]; [|exact Hgt].
    exfalso. apply Hnot. split; [discriminate|exact Hle]. }
  unfold main_report. rewrite create_profit_matrix_eq. cbn [bind].
  rewrite print_table_eq by (rewrite length_fmap; lia).
  cbn [bind fmap list_fmap].
  rewrite calculate_expected_values_short by (rewrite length_fmap; exact Hgt).
  reflexivity.
Qed.

(** X14. [main] with its printing, on given vectors: with at least one
    order and at least as many probabilities as demands it writes the two
    tables, the list of expected profits and the summary that names the
    selected order and its expected profit; otherwise it reads out of
    bounds. The printing adds no failure to the computation. *)
Theorem main_report_total (demands : list Z) (probabilities : list double)
    (orders : list Z) (out : list string) :
  main_report format_fixed2 demands probabilities orders out =
    if decide (orders <> [] /\ (length demands <= length probabilities)%nat)
    then Returns (out ++ report_text format_fixed2 demands probabilities orders)
    else OutOfBounds.
Proof.
  case_decide as Hcond.
  - destruct Hcond as [Hne Hlen]. apply main_report_eq; assumption.
  - apply main_report_out_of_bounds. exact Hcond.
Qed.

End PrintingProperties.
